(** * Off-policy evaluation orchestrator ([obp/ope/meta.py])

    A shallow embedding of the class [OffPolicyEvaluation] and of the
    pieces of Python, NumPy and pandas its methods rely on, followed by
    the properties of the orchestration layer.

    Conventions of the embedding:
    - Python [float] is IEEE binary64: Rocq's primitive [float]; where
      the behaviour depends on it ([/] by zero), a scalar also records
      whether it is a built-in float or a [numpy.float64].
    - Python [int] and NumPy integer entries are [Z] (no arithmetic is
      performed on them here, only comparison and indexing).
    - a Python [dict] is an insertion-ordered association list with
      distinct keys ([Dict]); iteration follows insertion order and an
      assignment to an existing key keeps the key's position.
    - a method of the class is a computation in the monad [M]: it reads
      and writes the fields of [self], may raise, and records the calls
      it makes to its collaborators in a call trace.
    - the estimators and the regression model live in other modules;
      they enter through their interfaces.

    Embedded: [__post_init__], [_create_estimator_inputs],
    [estimate_policy_values], [estimate_intervals],
    [summarize_off_policy_estimates] and
    [evaluate_performance_of_estimators]. The plotting method
    [visualize_off_policy_estimates] and
    [summarize_estimators_comparison] play no part in the properties
    below and are left out. *)

From Stdlib Require Import ZArith String Bool Lia List.
From Stdlib Require Import Floats.PrimFloat.
Import ListNotations.

Local Open Scope Z_scope.

(** ** Python results and exceptions *)

Module Py.

Inductive exn : Type :=
| IndexError
| ValueError
| TypeError
| ZeroDivisionError
| OtherError (msg : string).  (* whatever a collaborator raises *)

Inductive result (A : Type) : Type :=
| Ok (a : A)
| Raise (e : exn).

Arguments Ok {A} a.
Arguments Raise {A} e.

Definition rbind {A B} (r : result A) (k : A -> result B) : result B :=
  match r with
  | Ok a => k a
  | Raise e => Raise e
  end.

(** A float scalar as Python holds it: a built-in [float], or a
    [numpy.float64] (a subclass of [float]; it is what [ndarray.mean()]
    and NumPy arithmetic return). Both carry a binary64 value. *)
Inductive scalar : Type :=
| PyFloat (x : float)
| NpFloat64 (x : float).

Definition scalar_value (s : scalar) : float :=
  match s with PyFloat x | NpFloat64 x => x end.

Definition is_numpy (s : scalar) : bool :=
  match s with PyFloat _ => false | NpFloat64 _ => true end.

(** [a - b]: built-in arithmetic on two built-in floats, NumPy's as
    soon as one operand is a NumPy scalar; the value is the IEEE
    difference either way. *)
Definition scalar_sub (a b : scalar) : scalar :=
  match a, b with
  | PyFloat x, PyFloat y => PyFloat (PrimFloat.sub x y)
  | _, _ => NpFloat64 (PrimFloat.sub (scalar_value a) (scalar_value b))
  end.

(** [a / b]: on two built-in floats a zero divisor (of either sign)
    raises; as soon as one operand is a NumPy scalar the division is
    NumPy's, which returns the IEEE quotient (an infinity or a NaN for
    a zero divisor, with a [RuntimeWarning] under NumPy's default
    error state) and does not raise. *)
Definition scalar_truediv (a b : scalar) : result scalar :=
  match a, b with
  | PyFloat x, PyFloat y =>
      if PrimFloat.eqb y 0%float then Raise ZeroDivisionError
      else Ok (PyFloat (PrimFloat.div x y))
  | _, _ => Ok (NpFloat64 (PrimFloat.div (scalar_value a) (scalar_value b)))
  end.

(** [np.abs(a)]: always a [numpy.float64]; its value. *)
Definition np_abs (a : scalar) : float := PrimFloat.abs (scalar_value a).

End Py.
Import Py.

(** ** Insertion-ordered dictionaries with string keys *)

Module Dict.

Definition dict (V : Type) : Type := list (string * V).

Definition keys {V} (d : dict V) : list string := map fst d.
Definition values {V} (d : dict V) : list V := map snd d.
Definition items {V} (d : dict V) : list (string * V) := d.

Fixpoint get {V} (d : dict V) (k : string) : option V :=
  match d with
  | [] => None
  | (k', v) :: d' => if String.eqb k' k then Some v else get d' k
  end.

Definition mem {V} (d : dict V) (k : string) : bool :=
  match get d k with Some _ => true | None => false end.

(** [d[k] = v]: overwrite in place when [k] is present, append
    otherwise. *)
Fixpoint set {V} (d : dict V) (k : string) (v : V) : dict V :=
  match d with
  | [] => [(k, v)]
  | (k', v') :: d' =>
      if String.eqb k' k then (k', v) :: d' else (k', v') :: set d' k v
  end.

(** Representation invariant of a Python dict: keys are distinct. *)
Definition wf {V} (d : dict V) : Prop := NoDup (keys d).

End Dict.

(** ** The NumPy operations used by the orchestrator *)

Module Np.

(** A 2-D integer array as its list of rows; every row of an
    [ndarray] has the same length [shape[1]]. *)
Definition ndarray2 : Type := list (list Z).
(** The per-round, per-action, per-slot estimates of a predictor. *)
Definition ndarray3 : Type := list (list (list float)).

Definition has_shape (a : ndarray2) (n_rows n_cols : nat) : Prop :=
  length a = n_rows /\ Forall (fun row => length row = n_cols) a.

(** [np.arange(n)] for a Python int [n]. *)
Definition arange (n : Z) : list Z :=
  map Z.of_nat (seq 0 (Z.to_nat n)).

(** Index normalisation along an axis of length [len]: negative
    indices count from the end, anything outside raises. *)
Definition normalize_index (len : nat) (i : Z) : result nat :=
  if (0 <=? i) && (i <? Z.of_nat len) then Ok (Z.to_nat i)
  else if (- Z.of_nat len <=? i) && (i <? 0) then Ok (Z.to_nat (i + Z.of_nat len))
  else Raise IndexError.

(** [a[r, c]] for scalar [r], [c]. *)
Definition item2 (a : ndarray2) (r c : Z) : result Z :=
  rbind (normalize_index (length a) r) (fun r' =>
  match nth_error a r' with
  | None => Raise IndexError
  | Some row =>
      rbind (normalize_index (length row) c) (fun c' =>
      match nth_error row c' with
      | None => Raise IndexError
      | Some x => Ok x
      end)
  end).

(** Broadcasting of two 1-D arrays to a common length: equal
    lengths pair up, a length-1 array is repeated, anything else is
    a shape mismatch ([None]). *)
Definition broadcast2 {A B} (xs : list A) (ys : list B) : option (list (A * B)) :=
  if Nat.eqb (length xs) (length ys) then Some (combine xs ys)
  else match xs, ys with
       | [x], _ => Some (map (fun y => (x, y)) ys)
       | _, [y] => Some (map (fun x => (x, y)) xs)
       | _, _ => None
       end.

Fixpoint mapM {A B} (f : A -> result B) (xs : list A) : result (list B) :=
  match xs with
  | [] => Ok []
  | x :: xs' =>
      rbind (f x) (fun y => rbind (mapM f xs') (fun ys => Ok (y :: ys)))
  end.

(** [a[rows, cols]] with two integer index arrays (advanced
    indexing): the index arrays are broadcast against each other and
    the result holds [a[rows[k], cols[k]]]. *)
Definition fancy_index2 (a : ndarray2) (rows cols : list Z) : result (list Z) :=
  match broadcast2 rows cols with
  | None => Raise IndexError
  | Some ixs => mapM (fun rc => item2 a (fst rc) (snd rc)) ixs
  end.

(** [x == y] on two 1-D integer arrays, elementwise after
    broadcasting; operands that cannot be broadcast raise (NumPy
    1.25 and later). *)
Definition equal (xs ys : list Z) : result (list bool) :=
  match broadcast2 xs ys with
  | None => Raise ValueError
  | Some ps => Ok (map (fun p => Z.eqb (fst p) (snd p)) ps)
  end.

End Np.

(** ** The pandas operations used by the orchestrator *)

Module Pd.

(** A frame of floats, row-major: one list of cells per index
    label, one cell per column label. *)
Record DataFrame : Type := {
  index : list string;
  columns : list string;
  data : list (list float)
}.

(** [pd.DataFrame(d, index=labels)] for a dict of scalars: one
    column per key, every row repeats the scalars. *)
Definition from_scalars (d : Dict.dict float) (labels : list string) : DataFrame :=
  {| index := labels;
     columns := Dict.keys d;
     data := map (fun _ => Dict.values d) labels |}.

Fixpoint union_keys (seen : list string) (ds : list (list string)) : list string :=
  match ds with
  | [] => seen
  | ks :: ds' =>
      union_keys
        (fold_left (fun acc k => if existsb (String.eqb k) acc then acc else acc ++ [k]) ks seen)
        ds'
  end.

(** [pd.DataFrame(d)] for a dict of dicts: one column per outer key,
    one row per inner key (in order of first appearance), [nan]
    where a column lacks the inner key. *)
Definition from_dicts (d : Dict.dict (Dict.dict float)) : DataFrame :=
  let idx := union_keys [] (map (@Dict.keys float) (Dict.values d)) in
  {| index := idx;
     columns := Dict.keys d;
     data := map (fun r =>
               map (fun col => match Dict.get col r with
                               | Some x => x
                               | None => PrimFloat.nan
                               end) (Dict.values d)) idx |}.

(** [df.T] *)
Definition T (df : DataFrame) : DataFrame :=
  {| index := columns df;
     columns := index df;
     data := map (fun j => map (fun row => nth j row PrimFloat.nan) (data df))
                 (seq 0 (length (columns df))) |}.

End Pd.

(** ** Data model *)

(** The logged bandit feedback: the entries of the dictionary that
    the orchestrator reads, plus what it hands over to the regression
    model unread. *)
Record BanditFeedback : Type := {
  n_rounds : Z;
  n_actions : Z;
  action : list Z;
  position : list Z;
  reward : list float;
  pscore : list float;
  context : list (list float)
}.

(** The values stored in the estimator input dictionary. *)
Inductive value : Type :=
| FloatArray (a : list float)
| BoolArray (a : list bool)
| Float3Array (a : Np.ndarray3).

Definition EstimatorInputs : Type := Dict.dict value.

(** Modelled from the spec: the interface of [BaseOffPolicyEstimator]
    ([obp/ope/estimators.py]): a declared name and the point and
    interval operations, which receive the estimator inputs as keyword
    arguments and either return or raise. *)
Record BaseOffPolicyEstimator : Type := {
  estimator_name : string;
  estimate_policy_value : EstimatorInputs -> result float;
  estimate_interval :
    EstimatorInputs -> float -> Z -> option Z -> result (Dict.dict float);
  (* whether the float that [estimate_policy_value] returns on these
     inputs is a [numpy.float64] rather than a built-in float *)
  returns_numpy_scalar : EstimatorInputs -> bool
}.

(** The point estimate as the object Python receives. *)
Definition estimate_policy_value_scalar (e : BaseOffPolicyEstimator)
    (inputs : EstimatorInputs) : result scalar :=
  rbind (estimate_policy_value e inputs) (fun v =>
    Ok (if returns_numpy_scalar e inputs then NpFloat64 v else PyFloat v)).

(** Modelled from the spec: the interface of [RegressionModel]
    ([obp/ope/regression_model.py]) and of [obp.utils.check_is_fitted]:
    a fitted-state probe, [fit] (which updates the model) and
    [predict]. [RM] is the type of the model's internal state. *)
Class RegressionModel (RM : Type) : Type := {
  check_is_fitted : RM -> bool;
  fit : RM -> BanditFeedback -> option (list (list float)) -> result RM;
  predict :
    RM -> BanditFeedback -> option (list (list float)) -> Np.ndarray2 ->
    result Np.ndarray3
}.

(** Calls made by the orchestrator, in the order they happen. *)
Inductive Event : Type :=
| Ev_check_is_fitted
| Ev_fit
| Ev_predict (selected_actions : Np.ndarray2)
| Ev_create_estimator_inputs (selected_actions : Np.ndarray2)
| Ev_estimate_policy_value (name : string) (inputs : EstimatorInputs)
| Ev_estimate_interval (name : string) (inputs : EstimatorInputs)
    (alpha : float) (n_bootstrap_samples : Z) (random_state : option Z).


Definition is_create_estimator_inputs (ev : Event) : bool :=
  match ev with Ev_create_estimator_inputs _ => true | _ => false end.

Definition is_estimate_policy_value (name : string) (ev : Event) : bool :=
  match ev with
  | Ev_estimate_policy_value n _ => String.eqb n name
  | _ => false
  end.

Definition is_estimate_interval (name : string) (ev : Event) : bool :=
  match ev with
  | Ev_estimate_interval n _ _ _ _ => String.eqb n name
  | _ => false
  end.

Definition is_estimator_call (ev : Event) : bool :=
  match ev with
  | Ev_estimate_policy_value _ _ | Ev_estimate_interval _ _ _ _ _ => true
  | _ => false
  end.

Definition count (p : Event -> bool) (evs : list Event) : nat :=
  length (filter p evs).

(** ** The orchestrator object *)

(** The dataclass fields, and [ope_estimators_], the registry that
    [__post_init__] creates (empty until then). *)
Record OffPolicyEvaluation (RM : Type) : Type := {
  bandit_feedback : BanditFeedback;
  ope_estimators : list BaseOffPolicyEstimator;
  action_context : option (list (list float));
  regression_model : option RM;
  ope_estimators_ : Dict.dict BaseOffPolicyEstimator
}.

Arguments bandit_feedback {RM} _.
Arguments ope_estimators {RM} _.
Arguments action_context {RM} _.
Arguments regression_model {RM} _.
Arguments ope_estimators_ {RM} _.

(** ** The method monad: state [self], exceptions, call trace *)

Module Method.
Section Monad.
Context {RM : Type}.

Definition M (A : Type) : Type :=
  OffPolicyEvaluation RM -> result A * OffPolicyEvaluation RM * list Event.

Definition ret {A} (a : A) : M A := fun self => (Ok a, self, []).

Definition bind {A B} (m : M A) (k : A -> M B) : M B :=
  fun self =>
    match m self with
    | (Ok a, self1, evs1) =>
        match k a self1 with
        | (r, self2, evs2) => (r, self2, evs1 ++ evs2)
        end
    | (Raise e, self1, evs1) => (Raise e, self1, evs1)
    end.

(** A pure Python operation that may raise. *)
Definition lift {A} (r : result A) : M A := fun self => (r, self, []).

Definition get_self : M (OffPolicyEvaluation RM) := fun self => (Ok self, self, []).

(** A call to a collaborator: recorded, then its outcome. *)
Definition call {A} (ev : Event) (r : result A) : M A :=
  fun self => (r, self, [ev]).

Definition log (ev : Event) : M unit := fun self => (Ok tt, self, [ev]).

(** [self.regression_model] is updated in place by [fit]. *)
Definition with_regression_model (self : OffPolicyEvaluation RM) (rm : option RM)
  : OffPolicyEvaluation RM :=
  {| bandit_feedback := bandit_feedback self;
     ope_estimators := ope_estimators self;
     action_context := action_context self;
     regression_model := rm;
     ope_estimators_ := ope_estimators_ self |}.

Definition set_regression_model (rm : option RM) : M unit :=
  fun self => (Ok tt, with_regression_model self rm, []).

(** [self.ope_estimators_ = d] *)
Definition with_ope_estimators_ (self : OffPolicyEvaluation RM)
    (d : Dict.dict BaseOffPolicyEstimator) : OffPolicyEvaluation RM :=
  {| bandit_feedback := bandit_feedback self;
     ope_estimators := ope_estimators self;
     action_context := action_context self;
     regression_model := regression_model self;
     ope_estimators_ := d |}.

Definition set_ope_estimators_ (d : Dict.dict BaseOffPolicyEstimator) : M unit :=
  fun self => (Ok tt, with_ope_estimators_ self d, []).

(** [for x in xs: body(x)] *)
Fixpoint for_ {A} (xs : list A) (body : A -> M unit) : M unit :=
  match xs with
  | [] => ret tt
  | x :: xs' => bind (body x) (fun _ => for_ xs' body)
  end.

(** [for x in xs: acc = body(x, acc)], for a loop that fills a
    local variable. *)
Fixpoint for_acc {A S} (xs : list A) (body : A -> S -> M S) (acc : S) : M S :=
  match xs with
  | [] => ret acc
  | x :: xs' => bind (body x acc) (for_acc xs' body)
  end.

End Monad.
End Method.
Import Method.

Notation "x <- m ;; k" := (bind m (fun x => k))
  (at level 61, m at next level, right associativity).
Notation "m ;;; k" := (bind m (fun _ => k))
  (at level 61, right associativity).

(** ** The methods of [OffPolicyEvaluation] *)

Section Methods.
Context {RM : Type} {RMops : RegressionModel RM}.
Local Abbreviation M := (@M RM).

(** [__post_init__]: resolve the regression model, then build the
    registry. The [logging] calls have no effect on the object. *)
Definition __post_init__ : M unit :=
  self <- get_self ;;
  match regression_model self with
  | Some rm =>
      fitted <- call Ev_check_is_fitted (Ok (check_is_fitted rm)) ;;
      if (fitted : bool) then ret tt
      else
        rm' <- call Ev_fit (fit rm (bandit_feedback self) (action_context self)) ;;
        set_regression_model (Some rm')
  | None => ret tt
  end ;;;
  set_ope_estimators_ [] ;;;
  for_ (ope_estimators self) (fun estimator =>
    self <- get_self ;;
    set_ope_estimators_
      (Dict.set (ope_estimators_ self) (estimator_name estimator) estimator)).

(** The dataclass constructor: store the four arguments, run
    [__post_init__], hand out the object unless that raised. *)
Definition OffPolicyEvaluation_init
    (bandit_feedback : BanditFeedback)
    (ope_estimators : list BaseOffPolicyEstimator)
    (action_context : option (list (list float)))
    (regression_model : option RM)
  : result (OffPolicyEvaluation RM) * list Event :=
  match __post_init__
          {| bandit_feedback := bandit_feedback;
             ope_estimators := ope_estimators;
             action_context := action_context;
             regression_model := regression_model;
             ope_estimators_ := [] |}
  with
  | (Ok _, self, evs) => (Ok self, evs)
  | (Raise e, _, evs) => (Raise e, evs)
  end.

Definition _create_estimator_inputs (selected_actions : Np.ndarray2) : M EstimatorInputs :=
  log (Ev_create_estimator_inputs selected_actions) ;;;
  self <- get_self ;;
  let estimator_inputs : EstimatorInputs :=
    [("reward"%string, FloatArray (reward (bandit_feedback self)));
     ("pscore"%string, FloatArray (pscore (bandit_feedback self)))] in
  picked <- lift (Np.fancy_index2 selected_actions
                    (Np.arange (n_rounds (bandit_feedback self)))
                    (position (bandit_feedback self))) ;;
  action_match <- lift (Np.equal (action (bandit_feedback self)) picked) ;;
  let estimator_inputs :=
    Dict.set estimator_inputs "action_match"%string (BoolArray action_match) in
  match regression_model self with
  | Some rm =>
      estimated <- call (Ev_predict selected_actions)
                     (predict rm (bandit_feedback self) (action_context self)
                        selected_actions) ;;
      ret (Dict.set estimator_inputs "estimated_rewards_by_reg_model"%string
             (Float3Array estimated))
  | None => ret estimator_inputs
  end.

Definition estimate_policy_values (selected_actions : Np.ndarray2)
  : M (Dict.dict float) :=
  estimator_inputs <- _create_estimator_inputs selected_actions ;;
  self <- get_self ;;
  for_acc (Dict.items (ope_estimators_ self))
    (fun '(estimator_name, estimator) policy_value_dict =>
       v <- call (Ev_estimate_policy_value estimator_name estimator_inputs)
              (estimate_policy_value estimator estimator_inputs) ;;
       ret (Dict.set policy_value_dict estimator_name v))
    [].

Definition estimate_intervals (selected_actions : Np.ndarray2)
    (alpha : float) (n_bootstrap_samples : Z) (random_state : option Z)
  : M (Dict.dict (Dict.dict float)) :=
  estimator_inputs <- _create_estimator_inputs selected_actions ;;
  self <- get_self ;;
  for_acc (Dict.items (ope_estimators_ self))
    (fun '(estimator_name, estimator) policy_value_interval_dict =>
       v <- call (Ev_estimate_interval estimator_name estimator_inputs
                    alpha n_bootstrap_samples random_state)
              (estimate_interval estimator estimator_inputs
                 alpha n_bootstrap_samples random_state) ;;
       ret (Dict.set policy_value_interval_dict estimator_name v))
    [].

Definition summarize_off_policy_estimates (selected_actions : Np.ndarray2)
    (alpha : float) (n_bootstrap_samples : Z) (random_state : option Z)
  : M (Pd.DataFrame * Pd.DataFrame) :=
  policy_values <- estimate_policy_values selected_actions ;;
  let policy_value_df :=
    Pd.from_scalars policy_values ["estimated_policy_value"%string] in
  intervals <- estimate_intervals selected_actions alpha n_bootstrap_samples
                 random_state ;;
  let policy_value_interval_df := Pd.from_dicts intervals in
  ret (Pd.T policy_value_df, Pd.T policy_value_interval_df).

Definition evaluate_performance_of_estimators (selected_actions : Np.ndarray2)
    (ground_truth_policy_value : scalar)
  : M (Dict.dict float) :=
  estimator_inputs <- _create_estimator_inputs selected_actions ;;
  self <- get_self ;;
  for_acc (Dict.items (ope_estimators_ self))
    (fun '(estimator_name, estimator) relative_estimation_error_dict =>
       estimated_policy_value <-
         call (Ev_estimate_policy_value estimator_name estimator_inputs)
           (estimate_policy_value_scalar estimator estimator_inputs) ;;
       q <- lift (scalar_truediv
                    (scalar_sub estimated_policy_value ground_truth_policy_value)
                    ground_truth_policy_value) ;;
       ret (Dict.set relative_estimation_error_dict estimator_name (np_abs q)))
    [].

End Methods.

(** ** Notions used in the statements *)

Section Observations.
Context {RM : Type} {A : Type}.
Implicit Type x : result A * OffPolicyEvaluation RM * list Event.

Definition outcome x : result A := fst (fst x).
Definition final_self x : OffPolicyEvaluation RM := snd (fst x).
Definition trace x : list Event := snd x.
End Observations.

(** The invariant of the logged feedback: every per-round sequence
    has length [n_rounds]. *)
Definition well_formed (bf : BanditFeedback) : Prop :=
  0 <= n_rounds bf /\
  length (action bf) = Z.to_nat (n_rounds bf) /\
  length (position bf) = Z.to_nat (n_rounds bf) /\
  length (reward bf) = Z.to_nat (n_rounds bf) /\
  length (pscore bf) = Z.to_nat (n_rounds bf).

(** Every logged slot position is a valid index into a ranking of
    length [len_list]. *)
Definition positions_within (bf : BanditFeedback) (len_list : nat) : Prop :=
  Forall (fun p => - Z.of_nat len_list <= p < Z.of_nat len_list) (position bf).

(** What a dispatch loop [for name, est in registry.items(): d[name] =
    g(name, est)] computes, and which entries it reaches (all those up
    to and including the first one that raises). *)
Fixpoint collect {E V} (g : string -> E -> result V)
    (entries : list (string * E)) (acc : Dict.dict V) : result (Dict.dict V) :=
  match entries with
  | [] => Ok acc
  | (name, e) :: entries' =>
      rbind (g name e) (fun v => collect g entries' (Dict.set acc name v))
  end.

Fixpoint attempted {E V} (g : string -> E -> result V)
    (entries : list (string * E)) : list (string * E) :=
  match entries with
  | [] => []
  | (name, e) :: entries' =>
      (name, e) ::
      match g name e with
      | Ok _ => attempted g entries'
      | Raise _ => []
      end
  end.

(** The operation [g] of an entry returns (does not raise). *)
Definition returns {E V} (g : string -> E -> result V) (entry : string * E) : Prop :=
  exists v, g (fst entry) (snd entry) = Ok v.

(** The per-estimator computations of the three dispatch loops. *)
Definition point_of (inputs : EstimatorInputs)
  : string -> BaseOffPolicyEstimator -> result float :=
  fun _ e => estimate_policy_value e inputs.

Definition interval_of (inputs : EstimatorInputs) (alpha : float) (n : Z)
    (rs : option Z)
  : string -> BaseOffPolicyEstimator -> result (Dict.dict float) :=
  fun _ e => estimate_interval e inputs alpha n rs.

Definition relative_error_of (inputs : EstimatorInputs) (truth : scalar)
  : string -> BaseOffPolicyEstimator -> result float :=
  fun _ e =>
    rbind (estimate_policy_value_scalar e inputs) (fun v =>
    rbind (scalar_truediv (scalar_sub v truth) truth) (fun q =>
    Ok (np_abs q))).

(** The registry a list of estimators gives rise to. *)
Definition registry_of (es : list BaseOffPolicyEstimator)
  : Dict.dict BaseOffPolicyEstimator :=
  fold_left (fun d e => Dict.set d (estimator_name e) e) es [].

(** The last estimator of the list that declares [name]. *)
Definition last_named (name : string) (es : list BaseOffPolicyEstimator)
  : option BaseOffPolicyEstimator :=
  find (fun e => String.eqb (estimator_name e) name) (rev es).

(** The declared names in order of first occurrence. *)
Definition registration_order (es : list BaseOffPolicyEstimator) : list string :=
  rev (nodup string_dec (rev (map estimator_name es))).

(** The public evaluation operations, and a lifetime of an
    orchestrator: construction followed by any sequence of evaluation
    calls, each of which the caller lets return or fail. *)
Inductive EvaluationCall : Type :=
| Call_estimate_policy_values (selected_actions : Np.ndarray2)
| Call_estimate_intervals (selected_actions : Np.ndarray2)
    (alpha : float) (n_bootstrap_samples : Z) (random_state : option Z)
| Call_summarize_off_policy_estimates (selected_actions : Np.ndarray2)
    (alpha : float) (n_bootstrap_samples : Z) (random_state : option Z)
| Call_evaluate_performance_of_estimators (selected_actions : Np.ndarray2)
    (ground_truth_policy_value : scalar).

Section Lifetime.
Context {RM : Type} {RMops : RegressionModel RM}.

Definition run_call (c : EvaluationCall) (self : OffPolicyEvaluation RM)
  : OffPolicyEvaluation RM * list Event :=
  match c with
  | Call_estimate_policy_values sa =>
      let x := estimate_policy_values sa self in (final_self x, trace x)
  | Call_estimate_intervals sa alpha n rs =>
      let x := estimate_intervals sa alpha n rs self in (final_self x, trace x)
  | Call_summarize_off_policy_estimates sa alpha n rs =>
      let x := summarize_off_policy_estimates sa alpha n rs self in
      (final_self x, trace x)
  | Call_evaluate_performance_of_estimators sa v =>
      let x := evaluate_performance_of_estimators sa v self in
      (final_self x, trace x)
  end.

Fixpoint run_calls (cs : list EvaluationCall) (self : OffPolicyEvaluation RM)
  : list Event :=
  match cs with
  | [] => []
  | c :: cs' =>
      let '(self', evs) := run_call c self in evs ++ run_calls cs' self'
  end.

End Lifetime.

(** A float literal is a built-in float. *)
Coercion PyFloat : float >-> scalar.

(** ** Sample objects *)

Module Sample.

(** The scenario of the specification: three rounds, every logged
    position is slot 0. *)
Definition feedback : BanditFeedback :=
  {| n_rounds := 3; n_actions := 3;
     action := [1; 0; 2]; position := [0; 0; 0];
     reward := [1; 0; 1]%float; pscore := [0.5; 0.5; 0.5]%float;
     context := [] |}.

Definition selected_actions : Np.ndarray2 := [[1; 2]; [0; 1]; [2; 0]].

(** One round logged at slot 2, and a policy that proposes a single
    action per round. *)
Definition feedback_slot2 : BanditFeedback :=
  {| n_rounds := 1; n_actions := 3;
     action := [0]; position := [2];
     reward := [1]%float; pscore := [0.5]%float;
     context := [] |}.

Definition single_slot : Np.ndarray2 := [[0]].

Definition constant_estimator (name : string) (v : float) : BaseOffPolicyEstimator :=
  {| estimator_name := name;
     estimate_policy_value := fun _ => Ok v;
     estimate_interval := fun _ _ _ _ =>
       Ok [("mean"%string, v); ("lower"%string, v); ("upper"%string, v)];
     returns_numpy_scalar := fun _ => false |}.

Definition rm_a := constant_estimator "rm" 0.5%float.
Definition rm_b := constant_estimator "rm" 0.25%float.
Definition ipw := constant_estimator "ipw" 0.75%float.

(** A regression model whose state is its fitted flag. *)
Definition flag_model : RegressionModel bool :=
  {| check_is_fitted := fun fitted => fitted;
     fit := fun _ _ _ => Ok true;
     predict := fun fitted _ _ _ =>
       if fitted then Ok [] else Raise (OtherError "not fitted") |}.

(** No regression model at all. *)
Definition no_model : RegressionModel Empty_set :=
  {| check_is_fitted := fun rm : Empty_set => match rm with end;
     fit := fun (rm : Empty_set) _ _ => match rm with end;
     predict := fun (rm : Empty_set) _ _ _ => match rm with end |}.

Definition plain (bf : BanditFeedback) (es : list BaseOffPolicyEstimator)
  : OffPolicyEvaluation Empty_set :=
  {| bandit_feedback := bf;
     ope_estimators := es;
     action_context := None;
     regression_model := None;
     ope_estimators_ := registry_of es |}.

End Sample.

(** ** Tactics *)

Ltac run_monad :=
  unfold bind, ret, lift, call, log, get_self; simpl.

(** ** The remaining table method *)

Section MoreMethods.
Context {RM : Type} {RMops : RegressionModel RM}.
Local Abbreviation M := (@M RM).

(** A keyword call of [evaluate_performance_of_estimators]: both
    parameters are required, so a call that leaves one out raises
    [TypeError] when the arguments are bound, before the body runs. *)
Definition evaluate_performance_of_estimators_call
    (selected_actions : option Np.ndarray2)
    (ground_truth_policy_value : option scalar)
  : M (Dict.dict float) :=
  match selected_actions, ground_truth_policy_value with
  | Some sa, Some v => evaluate_performance_of_estimators sa v
  | _, _ => lift (Raise TypeError)
  end.

(** [summarize_estimators_comparison] passes [selected_actions] only. *)
Definition summarize_estimators_comparison (selected_actions : Np.ndarray2)
  : M Pd.DataFrame :=
  relative_estimation_error <-
    evaluate_performance_of_estimators_call (Some selected_actions) None ;;
  let relative_estimation_error_df :=
    Pd.from_scalars relative_estimation_error ["relative_estimation_error"%string] in
  ret (Pd.T relative_estimation_error_df).

End MoreMethods.

(** ** Further notions used in the statements *)

Definition is_predict (ev : Event) : bool :=
  match ev with Ev_predict _ => true | _ => false end.

Definition is_check_is_fitted (ev : Event) : bool :=
  match ev with Ev_check_is_fitted => true | _ => false end.

(** The relative estimation errors of a mapping of point estimates. *)
Definition relative_errors (truth : float) (policy_values : Dict.dict float)
  : Dict.dict float :=
  map (fun kv =>
         (fst kv, PrimFloat.abs (PrimFloat.div (PrimFloat.sub (snd kv) truth) truth)))
      policy_values.

(** The cell of a frame built from a dict of dicts: the column's
    value at the row label, [nan] when the column lacks it. *)
Definition Pd_cell (col : Dict.dict float) (r : string) : float :=
  match Dict.get col r with Some x => x | None => PrimFloat.nan end.

(** An index that NumPy rejects along an axis of length [len]. *)
Definition out_of_bounds (len : nat) (i : Z) : Prop :=
  i < - Z.of_nat len \/ Z.of_nat len <= i.

(** ** Further sample objects *)

Module Sample2.

(** An estimator whose operations raise. *)
Definition raising_estimator (name : string) : BaseOffPolicyEstimator :=
  {| estimator_name := name;
     estimate_policy_value := fun _ => Raise ValueError;
     estimate_interval := fun _ _ _ _ => Raise ValueError;
     returns_numpy_scalar := fun _ => false |}.

(** An estimator that returns [numpy.float64] estimates, as one that
    averages an array does. *)
Definition numpy_estimator (name : string) (v : float) : BaseOffPolicyEstimator :=
  {| estimator_name := name;
     estimate_policy_value := fun _ => Ok v;
     estimate_interval := fun _ _ _ _ =>
       Ok [("mean"%string, v); ("lower"%string, v); ("upper"%string, v)];
     returns_numpy_scalar := fun _ => true |}.

Definition dr := numpy_estimator "dr" 0.5%float.

Definition dm := raising_estimator "dm".

(** A regression model that cannot be fitted. *)
Definition unfittable_model : RegressionModel unit :=
  {| check_is_fitted := fun _ => false;
     fit := fun _ _ _ => Raise (OtherError "fit failed");
     predict := fun _ _ _ _ => Raise (OtherError "not fitted") |}.

Definition with_model (bf : BanditFeedback) (es : list BaseOffPolicyEstimator)
    (fitted : bool) : OffPolicyEvaluation bool :=
  {| bandit_feedback := bf;
     ope_estimators := es;
     action_context := None;
     regression_model := Some fitted;
     ope_estimators_ := registry_of es |}.

End Sample2.

(** * Properties *)

(** ** Dictionaries *)

Module DictFacts.
Import Dict.

Lemma get_set_same {V} (d : dict V) k v : get (set d k v) k = Some v.
Proof.
  induction d as [|[k' v'] d IH]; simpl.
  - now rewrite String.eqb_refl.
  - destruct (String.eqb k' k) eqn:E; simpl; rewrite E; auto.
Qed.

Lemma get_set_other {V} (d : dict V) k v k' :
  k <> k' -> get (set d k v) k' = get d k'.
Proof.
  intros Hne. induction d as [|[k0 v0] d IH]; simpl.
  - destruct (String.eqb_spec k k'); congruence.
  - destruct (String.eqb_spec k0 k); simpl.
    + subst. destruct (String.eqb_spec k k'); congruence.
    + now rewrite IH.
Qed.

Lemma get_none_iff {V} (d : dict V) k : get d k = None <-> ~ In k (keys d).
Proof.
  induction d as [|[k' v'] d IH]; simpl.
  - tauto.
  - destruct (String.eqb_spec k' k).
    + split; [discriminate | intros H; exfalso; auto].
    + rewrite IH. tauto.
Qed.

Lemma mem_true_iff {V} (d : dict V) k : mem d k = true <-> In k (keys d).
Proof.
  unfold mem. destruct (get d k) eqn:E.
  - split; auto. intros _.
    destruct (in_dec string_dec k (keys d)) as [H|H]; auto.
    apply get_none_iff in H. congruence.
  - apply get_none_iff in E. split; [discriminate | tauto].
Qed.

Lemma set_fresh {V} (d : dict V) k v :
  ~ In k (keys d) -> set d k v = d ++ [(k, v)].
Proof.
  induction d as [|[k' v'] d IH]; simpl; intros H; auto.
  destruct (String.eqb_spec k' k).
  - exfalso; auto.
  - f_equal. apply IH. tauto.
Qed.

Lemma keys_set_present {V} (d : dict V) k v :
  In k (keys d) -> keys (set d k v) = keys d.
Proof.
  induction d as [|[k' v'] d IH]; simpl; intros H.
  - contradiction.
  - destruct (String.eqb_spec k' k); simpl; auto.
    f_equal. apply IH. destruct H; congruence.
Qed.

Lemma keys_set {V} (d : dict V) k v :
  keys (set d k v) = if mem d k then keys d else keys d ++ [k].
Proof.
  destruct (mem d k) eqn:E.
  - apply keys_set_present, mem_true_iff, E.
  - rewrite set_fresh.
    + unfold keys. now rewrite map_app.
    + intros H. apply mem_true_iff in H. congruence.
Qed.

Lemma wf_set {V} (d : dict V) k v : wf d -> wf (set d k v).
Proof.
  unfold wf. intros H. rewrite keys_set. destruct (mem d k) eqn:E; auto.
  apply NoDup_app; auto.
  - constructor; [simpl; tauto | constructor].
  - intros x Hx [<-|[]]. apply mem_true_iff in Hx. congruence.
Qed.

End DictFacts.

(** ** Arrays *)

Module NpFacts.
Import Np.

Lemma length_arange n : length (arange n) = Z.to_nat n.
Proof. unfold arange. now rewrite length_map, length_seq. Qed.

Lemma nth_error_arange n i :
  (i < Z.to_nat n)%nat -> nth_error (arange n) i = Some (Z.of_nat i).
Proof.
  intros Hi. unfold arange.
  rewrite nth_error_map, nth_error_seq.
  destruct (Nat.ltb_spec i (Z.to_nat n)); [reflexivity | lia].
Qed.

Lemma broadcast2_same_length {A B} (xs : list A) (ys : list B) :
  length xs = length ys -> broadcast2 xs ys = Some (combine xs ys).
Proof. intros H. unfold broadcast2. now rewrite H, Nat.eqb_refl. Qed.

Lemma nth_error_combine {A B} (xs : list A) (ys : list B) i x y :
  nth_error xs i = Some x -> nth_error ys i = Some y ->
  nth_error (combine xs ys) i = Some (x, y).
Proof.
  revert ys i. induction xs as [|x0 xs IH]; intros [|y0 ys] [|i]; simpl;
    try discriminate.
  - congruence.
  - apply IH.
Qed.

Lemma mapM_ok {A B} (f : A -> result B) xs ys :
  mapM f xs = Ok ys ->
  length ys = length xs /\
  forall i x, nth_error xs i = Some x ->
    exists y, f x = Ok y /\ nth_error ys i = Some y.
Proof.
  revert ys. induction xs as [|x0 xs IH]; simpl; intros ys H.
  - inversion H; subst. split; auto. intros [|i] x; discriminate.
  - destruct (f x0) as [y0|] eqn:E0; simpl in H; [|discriminate].
    destruct (mapM f xs) as [ys'|] eqn:E1; simpl in H; [|discriminate].
    inversion H; subst. destruct (IH ys' eq_refl) as [Hlen Hnth].
    split; [simpl; congruence|].
    intros [|i] x Hx; simpl in *.
    + inversion Hx; subst. eauto.
    + auto.
Qed.

Lemma mapM_total {A B} (f : A -> result B) xs :
  Forall (fun x => exists y, f x = Ok y) xs -> exists ys, mapM f xs = Ok ys.
Proof.
  induction 1 as [|x xs [y Hy] _ [ys Hys]]; simpl.
  - eauto.
  - rewrite Hy, Hys. simpl. eauto.
Qed.

Lemma normalize_index_nat len i :
  (i < len)%nat -> normalize_index len (Z.of_nat i) = Ok i.
Proof.
  intros Hi. unfold normalize_index.
  destruct (Z.leb_spec 0 (Z.of_nat i)); [|lia].
  destruct (Z.ltb_spec (Z.of_nat i) (Z.of_nat len)); [|lia].
  simpl. now rewrite Nat2Z.id.
Qed.

Lemma normalize_index_total len c :
  - Z.of_nat len <= c < Z.of_nat len ->
  exists c', normalize_index len c = Ok c' /\ (c' < len)%nat.
Proof.
  intros Hc. unfold normalize_index.
  destruct (Z.leb_spec 0 c); destruct (Z.ltb_spec c (Z.of_nat len)); simpl.
  - exists (Z.to_nat c). split; auto. lia.
  - lia.
  - destruct (Z.leb_spec (- Z.of_nat len) c); destruct (Z.ltb_spec c 0);
      simpl; try lia.
    exists (Z.to_nat (c + Z.of_nat len)). split; auto. lia.
  - lia.
Qed.

Lemma item2_total a n_rows n_cols i c :
  has_shape a n_rows n_cols -> (i < n_rows)%nat ->
  - Z.of_nat n_cols <= c < Z.of_nat n_cols ->
  exists v, item2 a (Z.of_nat i) c = Ok v.
Proof.
  intros [Hrows Hcols] Hi Hc. unfold item2.
  rewrite normalize_index_nat by lia. simpl.
  destruct (nth_error a i) as [row|] eqn:Erow.
  - assert (Hlen : length row = n_cols).
    { rewrite Forall_forall in Hcols. apply Hcols.
      eapply nth_error_In; eauto. }
    rewrite Hlen.
    destruct (normalize_index_total n_cols c Hc) as [c' [-> Hc']]. simpl.
    destruct (nth_error row c') eqn:Ecell; eauto.
    apply nth_error_None in Ecell. lia.
  - apply nth_error_None in Erow. lia.
Qed.

(** What a successful lookup [a[i, p]] reads: the entry of row [i] at
    offset [p] from the start of the row, or from its end when [p] is
    negative. *)
Lemma item2_ok a n_rows n_cols i p v :
  has_shape a n_rows n_cols ->
  item2 a (Z.of_nat i) p = Ok v ->
  exists row,
    nth_error a i = Some row /\
    - Z.of_nat n_cols <= p < Z.of_nat n_cols /\
    nth_error row (Z.to_nat (if 0 <=? p then p else p + Z.of_nat n_cols)) = Some v.
Proof.
  intros [Hrows Hcols]. unfold item2, normalize_index.
  destruct (Z.leb_spec 0 (Z.of_nat i)); [|lia]. simpl.
  destruct (Z.ltb_spec (Z.of_nat i) (Z.of_nat (length a))); simpl.
  2:{ destruct (Z.leb_spec (- Z.of_nat (length a)) (Z.of_nat i));
        destruct (Z.ltb_spec (Z.of_nat i) 0); simpl; try lia; discriminate. }
  rewrite Nat2Z.id. destruct (nth_error a i) as [row|] eqn:Erow; [|discriminate].
  assert (Hlen : length row = n_cols).
  { rewrite Forall_forall in Hcols. apply Hcols. eapply nth_error_In; eauto. }
  rewrite Hlen.
  destruct (Z.leb_spec 0 p); destruct (Z.ltb_spec p (Z.of_nat n_cols)); simpl.
  - destruct (nth_error row (Z.to_nat p)) eqn:Ecell; [|discriminate].
    intros Hres. inversion Hres; subst. exists row. repeat split; auto; lia.
  - destruct (Z.leb_spec (- Z.of_nat n_cols) p); destruct (Z.ltb_spec p 0);
      simpl; try lia; discriminate.
  - destruct (Z.leb_spec (- Z.of_nat n_cols) p); destruct (Z.ltb_spec p 0);
      simpl; try lia; try discriminate.
    destruct (nth_error row (Z.to_nat (p + Z.of_nat n_cols))) eqn:Ecell;
      [|discriminate].
    intros Hres. inversion Hres; subst. exists row. repeat split; auto; lia.
  - lia.
Qed.

(** Advanced indexing with [np.arange(n)] as row index: entry [i] of
    the result is [a[i, cols[i]]]. *)
Lemma fancy_index2_rounds a n cols picked :
  length cols = Z.to_nat n ->
  fancy_index2 a (arange n) cols = Ok picked ->
  length picked = Z.to_nat n /\
  forall i p, nth_error cols i = Some p ->
    exists v, item2 a (Z.of_nat i) p = Ok v /\ nth_error picked i = Some v.
Proof.
  intros Hlen H. unfold fancy_index2 in H.
  rewrite broadcast2_same_length in H by (now rewrite length_arange).
  apply mapM_ok in H. destruct H as [Hl Hnth]. split.
  - rewrite Hl, length_combine, length_arange. lia.
  - intros i p Hp.
    assert (Hi : (i < Z.to_nat n)%nat).
    { rewrite <- Hlen. apply nth_error_Some. congruence. }
    destruct (Hnth i (Z.of_nat i, p)) as [v [Hv Hpick]].
    + apply nth_error_combine; auto. now apply nth_error_arange.
    + simpl in Hv. eauto.
Qed.

Lemma fancy_index2_total a n len_list cols :
  has_shape a (Z.to_nat n) len_list ->
  length cols = Z.to_nat n ->
  Forall (fun p => - Z.of_nat len_list <= p < Z.of_nat len_list) cols ->
  exists picked, fancy_index2 a (arange n) cols = Ok picked.
Proof.
  intros Hshape Hlen Hcols. unfold fancy_index2.
  rewrite broadcast2_same_length by (now rewrite length_arange).
  apply mapM_total. apply Forall_forall. intros [r c] Hin.
  simpl. pose proof (in_combine_l _ _ _ _ Hin) as Hr.
  pose proof (in_combine_r _ _ _ _ Hin) as Hc.
  unfold arange in Hr. apply in_map_iff in Hr. destruct Hr as [i [<- Hi]].
  apply in_seq in Hi. rewrite Forall_forall in Hcols.
  eapply item2_total; eauto. lia.
Qed.

Lemma equal_same_length xs ys :
  length xs = length ys ->
  equal xs ys = Ok (map (fun p => Z.eqb (fst p) (snd p)) (combine xs ys)).
Proof. intros H. unfold equal. now rewrite broadcast2_same_length. Qed.

End NpFacts.

(** ** Dispatch loops *)

Section LoopFacts.
Context {E V : Type} (g : string -> E -> result V).

Local Abbreviation returns := (returns g).

Lemma collect_ok_returns entries : forall acc d,
  collect g entries acc = Ok d -> Forall returns entries.
Proof.
  induction entries as [|[n e] entries IH]; simpl; intros acc d H.
  - constructor.
  - destruct (g n e) as [v|] eqn:Eg; simpl in H; [|discriminate].
    constructor; [exists v; exact Eg | eapply IH; eauto].
Qed.

Lemma collect_total entries : forall acc,
  Forall returns entries -> exists d, collect g entries acc = Ok d.
Proof.
  induction entries as [|[n e] entries IH]; simpl; intros acc H.
  - eauto.
  - inversion H as [|? ? [v Hv] Hrest]; subst. simpl in Hv. rewrite Hv.
    simpl. apply IH, Hrest.
Qed.

Lemma attempted_all entries :
  Forall returns entries -> attempted g entries = entries.
Proof.
  induction 1 as [|[n e] entries [v Hv] _ IH]; simpl; auto.
  simpl in Hv. now rewrite Hv, IH.
Qed.

Lemma attempted_prefix entries :
  exists rest, entries = attempted g entries ++ rest.
Proof.
  induction entries as [|[n e] entries [rest IH]]; simpl.
  - now exists [].
  - destruct (g n e).
    + exists rest. simpl. now rewrite <- IH.
    + now exists entries.
Qed.

(** When the registry's names are distinct and not yet in the
    accumulator, the loop appends one entry per registered name, in
    registry order. *)
Lemma collect_fresh entries : forall acc d,
  NoDup (Dict.keys acc ++ Dict.keys entries) ->
  collect g entries acc = Ok d ->
  exists l,
    d = acc ++ l /\
    Forall2 (fun entry kv => fst kv = fst entry /\
                             g (fst entry) (snd entry) = Ok (snd kv)) entries l.
Proof.
  induction entries as [|[n e] entries IH]; simpl; intros acc d Hnd H.
  - inversion H; subst. exists []. rewrite app_nil_r. auto.
  - destruct (g n e) as [v|] eqn:Eg; simpl in H; [|discriminate].
    assert (Hfresh : ~ In n (Dict.keys acc)).
    { intros Hin. apply NoDup_remove_2 in Hnd. apply Hnd.
      apply in_or_app. now left. }
    rewrite DictFacts.set_fresh in H by assumption.
    destruct (IH (acc ++ [(n, v)]) d) as [l [Hd Hl]]; auto.
    { unfold Dict.keys in *. rewrite map_app, <- app_assoc. exact Hnd. }
    exists ((n, v) :: l). split.
    + rewrite Hd, <- app_assoc. reflexivity.
    + constructor; auto.
Qed.

Lemma collect_registry entries d :
  Dict.wf entries ->
  collect g entries [] = Ok d ->
  Dict.keys d = Dict.keys entries /\
  forall n e, Dict.get entries n = Some e ->
    exists v, g n e = Ok v /\ Dict.get d n = Some v.
Proof.
  intros Hwf H. destruct (collect_fresh entries [] d Hwf H) as [l [-> Hl]].
  simpl. clear H. induction Hl as [|[n e] [k v] entries l [Hk Hv] Hl IH].
  - split; auto. intros n e; discriminate.
  - simpl in Hk, Hv. subst k. inversion Hwf; subst.
    destruct (IH H2) as [Hkeys Hget]. split.
    + simpl. f_equal. exact Hkeys.
    + intros n0 e0. simpl. destruct (String.eqb_spec n n0).
      * subst. intros H0. inversion H0; subst. eauto.
      * auto.
Qed.

End LoopFacts.

Section MonadFacts.
Context {RM : Type}.
Local Abbreviation M := (@M RM).

Lemma for_acc_dispatch {E V} (g : string -> E -> result V)
    (ev : string -> E -> Event)
    (body : string * E -> Dict.dict V -> M (Dict.dict V)) :
  (forall n e acc self,
      body (n, e) acc self =
      (rbind (g n e) (fun v => Ok (Dict.set acc n v)), self, [ev n e])) ->
  forall entries acc self,
    for_acc entries body acc self =
    (collect g entries acc, self,
     map (fun entry => ev (fst entry) (snd entry)) (attempted g entries)).
Proof.
  intros Hbody. induction entries as [|[n e] entries IH]; intros acc self.
  - reflexivity.
  - simpl. unfold bind. rewrite Hbody.
    destruct (g n e) as [v|]; simpl; [|reflexivity].
    now rewrite IH.
Qed.

End MonadFacts.

(** ** Counting calls *)

Lemma count_app p evs1 evs2 : count p (evs1 ++ evs2) = (count p evs1 + count p evs2)%nat.
Proof. unfold count. now rewrite filter_app, length_app. Qed.

Lemma count_map {A} p (f : A -> Event) l :
  count p (map f l) = length (filter (fun x => p (f x)) l).
Proof.
  unfold count. induction l as [|x l IH]; simpl; auto.
  destruct (p (f x)); simpl; auto.
Qed.

Lemma count_none p evs : (forall ev, In ev evs -> p ev = false) -> count p evs = 0%nat.
Proof.
  unfold count. induction evs as [|ev evs IH]; simpl; intros H; auto.
  rewrite (H ev) by auto. auto.
Qed.

Lemma named_entries_absent {E} (entries : list (string * E)) name :
  ~ In name (Dict.keys entries) ->
  length (filter (fun entry => String.eqb (fst entry) name) entries) = 0%nat.
Proof.
  induction entries as [|[n e] entries IH]; simpl; intros H; auto.
  destruct (String.eqb_spec n name); [exfalso; auto | apply IH; tauto].
Qed.

Lemma named_entries_once {E} (entries : list (string * E)) name :
  Dict.wf entries -> In name (Dict.keys entries) ->
  length (filter (fun entry => String.eqb (fst entry) name) entries) = 1%nat.
Proof.
  unfold Dict.wf. induction entries as [|[n e] entries IH]; simpl; intros Hnd Hin.
  - contradiction.
  - inversion Hnd; subst. destruct (String.eqb_spec n name).
    + subst. simpl. f_equal. now apply named_entries_absent.
    + apply IH; auto. destruct Hin; congruence.
Qed.

Lemma named_entries_le {E} (entries : list (string * E)) name :
  Dict.wf entries ->
  (length (filter (fun entry => String.eqb (fst entry) name) entries) <= 1)%nat.
Proof.
  intros Hwf. destruct (in_dec string_dec name (Dict.keys entries)).
  - rewrite named_entries_once; auto.
  - rewrite named_entries_absent; auto.
Qed.

Lemma wf_prefix {E} (l1 l2 : list (string * E)) : Dict.wf (l1 ++ l2) -> Dict.wf l1.
Proof.
  unfold Dict.wf, Dict.keys. rewrite map_app. intros H.
  induction (map fst l1) as [|k ks IH]; simpl in *.
  - constructor.
  - inversion H; subst. constructor; auto.
    intros Hin. apply H2. apply in_or_app. now left.
Qed.

(** ** The methods, unfolded *)

Section MethodFacts.
Context {RM : Type} {RMops : RegressionModel RM}.
Implicit Type self : OffPolicyEvaluation RM.

Lemma create_inputs_run sa self :
  exists r evs,
    _create_estimator_inputs sa self = (r, self, Ev_create_estimator_inputs sa :: evs) /\
    (evs = [] \/ evs = [Ev_predict sa]) /\
    (regression_model self = None -> evs = []).
Proof.
  unfold _create_estimator_inputs. run_monad.
  destruct (Np.fancy_index2 _ _ _) as [picked|]; simpl; [|eauto 6].
  destruct (Np.equal _ _) as [am|]; simpl; [|eauto 6].
  destruct (regression_model self) as [rm|]; simpl; [|eauto 6].
  unfold call. destruct (predict _ _ _ _); simpl; eexists; eexists;
    (split; [reflexivity|]); (split; [auto | discriminate]).
Qed.

Lemma estimate_policy_values_run sa self :
  estimate_policy_values sa self =
  match _create_estimator_inputs sa self with
  | (Ok inputs, self1, evs0) =>
      (collect (point_of inputs) (ope_estimators_ self1) [],
       self1,
       evs0 ++ map (fun entry => Ev_estimate_policy_value (fst entry) inputs)
                 (attempted (point_of inputs) (ope_estimators_ self1)))
  | (Raise e, self1, evs0) => (Raise e, self1, evs0)
  end.
Proof.
  unfold estimate_policy_values. unfold bind at 1.
  destruct (_create_estimator_inputs sa self) as [[[inputs|e] self1] evs0]; auto.
  unfold bind at 1. unfold get_self at 1. simpl.
  erewrite (for_acc_dispatch (point_of inputs)
              (fun n _ => Ev_estimate_policy_value n inputs)).
  - reflexivity.
  - intros n e acc s. unfold point_of. run_monad.
    destruct (estimate_policy_value e inputs); reflexivity.
Qed.

Lemma estimate_intervals_run sa alpha n rs self :
  estimate_intervals sa alpha n rs self =
  match _create_estimator_inputs sa self with
  | (Ok inputs, self1, evs0) =>
      (collect (interval_of inputs alpha n rs) (ope_estimators_ self1) [],
       self1,
       evs0 ++ map (fun entry => Ev_estimate_interval (fst entry) inputs alpha n rs)
                 (attempted (interval_of inputs alpha n rs) (ope_estimators_ self1)))
  | (Raise e, self1, evs0) => (Raise e, self1, evs0)
  end.
Proof.
  unfold estimate_intervals. unfold bind at 1.
  destruct (_create_estimator_inputs sa self) as [[[inputs|e] self1] evs0]; auto.
  unfold bind at 1. unfold get_self at 1. simpl.
  erewrite (for_acc_dispatch (interval_of inputs alpha n rs)
              (fun name _ => Ev_estimate_interval name inputs alpha n rs)).
  - reflexivity.
  - intros name e acc s. unfold interval_of. run_monad.
    destruct (estimate_interval e inputs alpha n rs); reflexivity.
Qed.

Lemma evaluate_performance_of_estimators_run sa truth self :
  evaluate_performance_of_estimators sa truth self =
  match _create_estimator_inputs sa self with
  | (Ok inputs, self1, evs0) =>
      (collect (relative_error_of inputs truth) (ope_estimators_ self1) [],
       self1,
       evs0 ++ map (fun entry => Ev_estimate_policy_value (fst entry) inputs)
                 (attempted (relative_error_of inputs truth) (ope_estimators_ self1)))
  | (Raise e, self1, evs0) => (Raise e, self1, evs0)
  end.
Proof.
  unfold evaluate_performance_of_estimators. unfold bind at 1.
  destruct (_create_estimator_inputs sa self) as [[[inputs|e] self1] evs0]; auto.
  unfold bind at 1. unfold get_self at 1. simpl.
  erewrite (for_acc_dispatch (relative_error_of inputs truth)
              (fun name _ => Ev_estimate_policy_value name inputs)).
  - reflexivity.
  - intros name e acc s. unfold relative_error_of. run_monad.
    destruct (estimate_policy_value_scalar e inputs) as [v|]; simpl; [|reflexivity].
    destruct (scalar_truediv _ _); reflexivity.
Qed.

End MethodFacts.

(** ** Input construction *)

Section InputConstruction.
Context {RM : Type} {RMops : RegressionModel RM}.
Implicit Type self : OffPolicyEvaluation RM.

(** Whenever the inputs are built, [action_match] compares, round by
    round, the logged action with the selected action at the logged
    position. *)
Lemma create_inputs_action_match sa self inputs :
  well_formed (bandit_feedback self) ->
  outcome (_create_estimator_inputs sa self) = Ok inputs ->
  exists am,
    Dict.get inputs "action_match" = Some (BoolArray am) /\
    length am = Z.to_nat (n_rounds (bandit_feedback self)) /\
    forall i a p,
      nth_error (action (bandit_feedback self)) i = Some a ->
      nth_error (position (bandit_feedback self)) i = Some p ->
      exists v, Np.item2 sa (Z.of_nat i) p = Ok v /\
                nth_error am i = Some (Z.eqb a v).
Proof.
  intros (Hn & Ha & Hp & _) H.
  unfold outcome, _create_estimator_inputs in H. revert H. run_monad.
  destruct (Np.fancy_index2 _ _ _) as [picked|] eqn:Epick; simpl; [|discriminate].
  apply NpFacts.fancy_index2_rounds in Epick; [|assumption].
  destruct Epick as [Hlen Hnth].
  rewrite NpFacts.equal_same_length by congruence. simpl.
  set (am := map (fun p => Z.eqb (fst p) (snd p))
               (combine (action (bandit_feedback self)) picked)).
  assert (Ham : length am = Z.to_nat (n_rounds (bandit_feedback self))).
  { unfold am. rewrite length_map, length_combine. lia. }
  assert (Hcell : forall i a p,
    nth_error (action (bandit_feedback self)) i = Some a ->
    nth_error (position (bandit_feedback self)) i = Some p ->
    exists v, Np.item2 sa (Z.of_nat i) p = Ok v /\
              nth_error am i = Some (Z.eqb a v)).
  { intros i a p Hia Hip. destruct (Hnth i p Hip) as [v [Hv Hpick]].
    exists v. split; auto. unfold am. rewrite nth_error_map.
    now rewrite (NpFacts.nth_error_combine _ _ i a v Hia Hpick). }
  destruct (regression_model self) as [rm|]; simpl.
  - unfold call. destruct (predict _ _ _ _); simpl; intros H; inversion H; subst.
    exists am. auto.
  - intros H; inversion H; subst. exists am. auto.
Qed.

(** The inputs are built whenever the shapes agree, the logged
    positions index into the rankings and the predictor (if any)
    predicts. *)
Lemma create_inputs_total sa self len_list :
  well_formed (bandit_feedback self) ->
  Np.has_shape sa (Z.to_nat (n_rounds (bandit_feedback self))) len_list ->
  positions_within (bandit_feedback self) len_list ->
  (forall rm, regression_model self = Some rm ->
     exists est, predict rm (bandit_feedback self) (action_context self) sa = Ok est) ->
  exists inputs, outcome (_create_estimator_inputs sa self) = Ok inputs.
Proof.
  intros (Hn & Ha & Hp & _) Hshape Hpos Hpred.
  unfold outcome, _create_estimator_inputs. run_monad.
  destruct (NpFacts.fancy_index2_total sa _ len_list _ Hshape Hp Hpos) as [picked Epick].
  rewrite Epick. simpl.
  destruct (NpFacts.fancy_index2_rounds _ _ _ _ Hp Epick) as [Hlen _].
  rewrite NpFacts.equal_same_length by congruence. simpl.
  destruct (regression_model self) as [rm|]; simpl; [|eauto].
  destruct (Hpred rm eq_refl) as [est Hest]. unfold call. rewrite Hest. simpl. eauto.
Qed.

End InputConstruction.

(** C1: for well-formed logged feedback and selected actions of shape
    (n_rounds, len_list), the inputs built by
    [_create_estimator_inputs] hold an [action_match] array of length
    [n_rounds]; for every round [i], the logged position [p] is a valid
    index into the ranking, and [action_match[i]] is true exactly when
    [action[i]] equals the entry of row [i] of the selected actions at
    slot [p] (counted from the end of the row when [p] is negative, as
    NumPy does). The inputs are built whenever the logged positions
    index into the rankings and the predictor, if any, predicts. On
    the scenario n_rounds=3, action=[1,0,2], selected actions
    [[1,2],[0,1],[2,0]] the array is [true, true, true] for
    position=[0,0,0] and [false, true, false] for position=[1,0,1]. *)
Theorem action_match_is_logged_action_at_logged_position :
  (forall (RM : Type) (RMops : RegressionModel RM)
          (self : OffPolicyEvaluation RM) (sa : Np.ndarray2) (len_list : nat),
     well_formed (bandit_feedback self) ->
     Np.has_shape sa (Z.to_nat (n_rounds (bandit_feedback self))) len_list ->
     (forall inputs,
        outcome (_create_estimator_inputs sa self) = Ok inputs ->
        exists am,
          Dict.get inputs "action_match" = Some (BoolArray am) /\
          length am = Z.to_nat (n_rounds (bandit_feedback self)) /\
          forall i a p,
            nth_error (action (bandit_feedback self)) i = Some a ->
            nth_error (position (bandit_feedback self)) i = Some p ->
            exists row v b,
              nth_error sa i = Some row /\
              - Z.of_nat len_list <= p < Z.of_nat len_list /\
              nth_error row
                (Z.to_nat (if 0 <=? p then p else p + Z.of_nat len_list)) = Some v /\
              nth_error am i = Some b /\
              (b = true <-> a = v)) /\
     (positions_within (bandit_feedback self) len_list ->
      (forall rm, regression_model self = Some rm ->
         exists est,
           predict rm (bandit_feedback self) (action_context self) sa = Ok est) ->
      exists inputs, outcome (_create_estimator_inputs sa self) = Ok inputs)) /\
  (forall (RM : Type) (RMops : RegressionModel RM)
          (self : OffPolicyEvaluation RM) inputs,
     n_rounds (bandit_feedback self) = 3 ->
     action (bandit_feedback self) = [1; 0; 2] ->
     position (bandit_feedback self) = [0; 0; 0] ->
     outcome (_create_estimator_inputs [[1; 2]; [0; 1]; [2; 0]] self) = Ok inputs ->
     Dict.get inputs "action_match" = Some (BoolArray [true; true; true])) /\
  (forall (RM : Type) (RMops : RegressionModel RM)
          (self : OffPolicyEvaluation RM) inputs,
     n_rounds (bandit_feedback self) = 3 ->
     action (bandit_feedback self) = [1; 0; 2] ->
     position (bandit_feedback self) = [1; 0; 1] ->
     outcome (_create_estimator_inputs [[1; 2]; [0; 1]; [2; 0]] self) = Ok inputs ->
     Dict.get inputs "action_match" = Some (BoolArray [false; true; false])).
Proof.
  split; [|split].
  - intros RM RMops self sa len_list Hwf Hshape. split.
    + intros inputs H.
      destruct (create_inputs_action_match sa self inputs Hwf H)
        as (am & Hget & Hlen & Hcell).
      exists am. repeat split; auto.
      intros i a p Hia Hip. destruct (Hcell i a p Hia Hip) as (v & Hv & Hb).
      destruct (NpFacts.item2_ok _ _ _ _ _ _ Hshape Hv) as (row & Hrow & Hp & Hcol).
      exists row, v, (Z.eqb a v).
      split; [exact Hrow|]. split; [exact Hp|]. split; [exact Hcol|].
      split; [exact Hb|]. apply Z.eqb_eq.
    + intros Hpos Hpred. eapply create_inputs_total; eauto.
  - intros RM RMops self inputs Hn Ha Hp.
    unfold outcome, _create_estimator_inputs. run_monad.
    rewrite Hn, Ha, Hp. simpl.
    destruct (regression_model self) as [rm|]; simpl.
    + unfold call. destruct (predict _ _ _ _); simpl; intros H; inversion H; subst.
      reflexivity.
    + intros H; inversion H; subst. reflexivity.
  - intros RM RMops self inputs Hn Ha Hp.
    unfold outcome, _create_estimator_inputs. run_monad.
    rewrite Hn, Ha, Hp. simpl.
    destruct (regression_model self) as [rm|]; simpl.
    + unfold call. destruct (predict _ _ _ _); simpl; intros H; inversion H; subst.
      reflexivity.
    + intros H; inversion H; subst. reflexivity.
Qed.

(** The scenario satisfies every hypothesis of the general statement,
    and the inputs are indeed built there. *)
Lemma action_match_is_logged_action_at_logged_position_witness :
  exists inputs am,
    outcome (_create_estimator_inputs (RMops := Sample.no_model)
               Sample.selected_actions (Sample.plain Sample.feedback []))
    = Ok inputs /\
    Dict.get inputs "action_match" = Some (BoolArray am) /\
    length am = 3%nat.
Proof.
  assert (Hwf : well_formed Sample.feedback).
  { unfold well_formed. simpl. repeat split; reflexivity || lia. }
  assert (Hshape : Np.has_shape Sample.selected_actions 3 2).
  { split; [reflexivity | repeat constructor]. }
  destruct (proj1 action_match_is_logged_action_at_logged_position
              Empty_set Sample.no_model (Sample.plain Sample.feedback [])
              Sample.selected_actions 2%nat Hwf Hshape) as [Hmatch Htotal].
  destruct Htotal as [inputs Hin].
  - unfold positions_within. simpl. repeat constructor; lia.
  - intros rm. destruct rm.
  - destruct (Hmatch inputs Hin) as (am & Hget & Hlen & _).
    exists inputs, am. auto.
Defined.

(** ** Construction *)

Section RegistryFacts.

Lemma registry_of_snoc es e :
  registry_of (es ++ [e]) = Dict.set (registry_of es) (estimator_name e) e.
Proof. unfold registry_of. now rewrite fold_left_app. Qed.

Lemma registry_of_get es name :
  Dict.get (registry_of es) name = last_named name es.
Proof.
  induction es as [|e es IH] using rev_ind.
  - reflexivity.
  - rewrite registry_of_snoc. unfold last_named. rewrite rev_app_distr. simpl.
    destruct (String.eqb_spec (estimator_name e) name) as [<-|Hne].
    + apply DictFacts.get_set_same.
    + rewrite DictFacts.get_set_other by assumption. exact IH.
Qed.

Lemma registry_of_wf es : Dict.wf (registry_of es).
Proof.
  induction es as [|e es IH] using rev_ind.
  - constructor.
  - rewrite registry_of_snoc. now apply DictFacts.wf_set.
Qed.

Lemma registry_of_keys es :
  Dict.keys (registry_of es) = registration_order es.
Proof.
  unfold registration_order. induction es as [|e es IH] using rev_ind.
  - reflexivity.
  - rewrite registry_of_snoc, DictFacts.keys_set, map_app, rev_app_distr. simpl.
    destruct (in_dec string_dec (estimator_name e) (rev (map estimator_name es)))
      as [Hin|Hout].
    + replace (Dict.mem (registry_of es) (estimator_name e)) with true; auto.
      symmetry. apply DictFacts.mem_true_iff. rewrite IH.
      rewrite <- in_rev. now apply nodup_In.
    + replace (Dict.mem (registry_of es) (estimator_name e)) with false.
      * simpl. now rewrite IH.
      * symmetry. apply not_true_is_false. intros Hmem.
        apply DictFacts.mem_true_iff in Hmem. rewrite IH in Hmem.
        rewrite <- in_rev in Hmem.
        apply nodup_In in Hmem. contradiction.
Qed.

Lemma registry_of_names es name :
  In name (Dict.keys (registry_of es)) <-> In name (map estimator_name es).
Proof.
  rewrite registry_of_keys. unfold registration_order.
  rewrite <- in_rev, nodup_In, <- in_rev. tauto.
Qed.

Lemma registry_of_distinct es :
  NoDup (map estimator_name es) ->
  Dict.keys (registry_of es) = map estimator_name es.
Proof.
  intros Hnd. rewrite registry_of_keys. unfold registration_order.
  rewrite nodup_fixed_point, rev_involutive; auto.
  now apply NoDup_rev.
Qed.

End RegistryFacts.

Section ConstructionFacts.
Context {RM : Type} {RMops : RegressionModel RM}.
Implicit Type self : OffPolicyEvaluation RM.

Lemma registration_loop es : forall self,
  for_ es (fun estimator =>
    self <- get_self ;;
    set_ope_estimators_
      (Dict.set (ope_estimators_ self) (estimator_name estimator) estimator)) self =
  (Ok tt,
   with_ope_estimators_ self
     (fold_left (fun d e => Dict.set d (estimator_name e) e) es (ope_estimators_ self)),
   []).
Proof.
  induction es as [|e es IH]; intros self; simpl.
  - unfold ret, with_ope_estimators_. now destruct self.
  - unfold bind at 1. unfold bind at 1. unfold get_self, set_ope_estimators_.
    rewrite IH. reflexivity.
Qed.

(** The four outcomes of construction. *)
Lemma init_run bf es ac rm :
  OffPolicyEvaluation_init bf es ac rm =
  let built m :=
    {| bandit_feedback := bf; ope_estimators := es; action_context := ac;
       regression_model := m; ope_estimators_ := registry_of es |} in
  match rm with
  | None => (Ok (built None), [])
  | Some m =>
      if check_is_fitted m then (Ok (built (Some m)), [Ev_check_is_fitted])
      else match fit m bf ac with
           | Ok m' => (Ok (built (Some m')), [Ev_check_is_fitted; Ev_fit])
           | Raise e => (Raise e, [Ev_check_is_fitted; Ev_fit])
           end
  end.
Proof.
  unfold OffPolicyEvaluation_init, __post_init__.
  unfold bind at 1. unfold get_self at 1. simpl.
  destruct rm as [m|]; simpl.
  - unfold bind at 1. unfold bind at 1. unfold call at 1.
    destruct (check_is_fitted m); simpl.
    + unfold bind. simpl. rewrite registration_loop. reflexivity.
    + unfold bind at 1. unfold call at 1. destruct (fit m bf ac); simpl; auto.
      unfold bind. simpl. rewrite registration_loop. reflexivity.
  - unfold bind. simpl. rewrite registration_loop. reflexivity.
Qed.

(** Construction succeeds unless [fit] raises. *)
Lemma init_succeeds bf es ac rm :
  (forall m, rm = Some m ->
     check_is_fitted m = true \/ exists m', fit m bf ac = Ok m') ->
  exists self evs,
    OffPolicyEvaluation_init bf es ac rm = (Ok self, evs) /\
    ope_estimators_ self = registry_of es /\
    bandit_feedback self = bf /\
    action_context self = ac.
Proof.
  intros Hrm. rewrite init_run. destruct rm as [m|]; simpl.
  - destruct (Hrm m eq_refl) as [Hfit|[m' Hfit]].
    + rewrite Hfit. eexists. eexists. repeat split.
    + destruct (check_is_fitted m); [|rewrite Hfit];
        eexists; eexists; repeat split.
  - eexists. eexists. repeat split.
Qed.

End ConstructionFacts.

(** C4: whenever predictor resolution does not raise, construction
    succeeds for every estimator list, duplicates included; the
    registry maps each name to the last estimator of the list that
    declares it, every estimator's name is a key of the registry, and
    the keys are the declared names in order of first occurrence (the
    list of names itself when they are distinct). *)
Theorem duplicate_names_last_registered_wins
    (RM : Type) (RMops : RegressionModel RM)
    (bf : BanditFeedback) (es : list BaseOffPolicyEstimator)
    (ac : option (list (list float))) (rm : option RM) :
  (forall m, rm = Some m ->
     check_is_fitted m = true \/ exists m', fit m bf ac = Ok m') ->
  exists self evs,
    OffPolicyEvaluation_init bf es ac rm = (Ok self, evs) /\
    ope_estimators_ self = registry_of es /\
    Dict.wf (ope_estimators_ self) /\
    (forall name, Dict.get (ope_estimators_ self) name = last_named name es) /\
    (forall e, In e es -> In (estimator_name e) (Dict.keys (ope_estimators_ self))) /\
    Dict.keys (ope_estimators_ self) = registration_order es /\
    (NoDup (map estimator_name es) ->
     Dict.keys (ope_estimators_ self) = map estimator_name es).
Proof.
  intros Hrm. rewrite init_run.
  assert (Hreg : forall m : option RM,
    let self := {| bandit_feedback := bf; ope_estimators := es; action_context := ac;
                   regression_model := m; ope_estimators_ := registry_of es |} in
    ope_estimators_ self = registry_of es /\
    Dict.wf (ope_estimators_ self) /\
    (forall name, Dict.get (ope_estimators_ self) name = last_named name es) /\
    (forall e, In e es -> In (estimator_name e) (Dict.keys (ope_estimators_ self))) /\
    Dict.keys (ope_estimators_ self) = registration_order es /\
    (NoDup (map estimator_name es) ->
     Dict.keys (ope_estimators_ self) = map estimator_name es)).
  { intros m. simpl. split; [reflexivity|]. split; [apply registry_of_wf|].
    split; [apply registry_of_get|].
    split; [|split; [apply registry_of_keys | apply registry_of_distinct]].
    intros e He. apply registry_of_names. now apply in_map. }
  destruct rm as [m|]; simpl.
  - destruct (Hrm m eq_refl) as [Hfit|[m' Hfit]].
    + rewrite Hfit. eauto.
    + destruct (check_is_fitted m); [eauto|]. rewrite Hfit. eauto.
  - eauto.
Qed.

(** Two estimators named "rm": construction succeeds and the second
    one is registered under that name, at the first one's place. *)
Lemma duplicate_names_last_registered_wins_witness :
  exists self evs,
    OffPolicyEvaluation_init (RMops := Sample.no_model) Sample.feedback
      [Sample.rm_a; Sample.ipw; Sample.rm_b] None None = (Ok self, evs) /\
    Dict.get (ope_estimators_ self) "rm" = Some Sample.rm_b /\
    Dict.keys (ope_estimators_ self) = ["rm"%string; "ipw"%string].
Proof.
  destruct (duplicate_names_last_registered_wins Empty_set Sample.no_model
              Sample.feedback [Sample.rm_a; Sample.ipw; Sample.rm_b] None None)
    as (self & evs & Hinit & _ & _ & Hget & _ & Hkeys & _).
  - intros m. destruct m.
  - exists self, evs. split; [exact Hinit|]. split.
    + rewrite Hget. reflexivity.
    + rewrite Hkeys. reflexivity.
Defined.

(** ** Calls made by the evaluation operations *)

Section EvaluationTraces.
Context {RM : Type} {RMops : RegressionModel RM}.
Implicit Type self : OffPolicyEvaluation RM.

Lemma count_map_none {A} p (f : A -> Event) l :
  (forall x, p (f x) = false) -> count p (map f l) = 0%nat.
Proof.
  intros H. apply count_none. intros ev Hin.
  apply in_map_iff in Hin. destruct Hin as [x [<- _]]. apply H.
Qed.





Lemma summarize_off_policy_estimates_run sa alpha n rs self :
  summarize_off_policy_estimates sa alpha n rs self =
  match estimate_policy_values sa self with
  | (Ok policy_values, self1, evs1) =>
      match estimate_intervals sa alpha n rs self1 with
      | (Ok intervals, self2, evs2) =>
          (Ok (Pd.T (Pd.from_scalars policy_values ["estimated_policy_value"%string]),
               Pd.T (Pd.from_dicts intervals)),
           self2, evs1 ++ evs2)
      | (Raise e, self2, evs2) => (Raise e, self2, evs1 ++ evs2)
      end
  | (Raise e, self1, evs1) => (Raise e, self1, evs1)
  end.
Proof.
  unfold summarize_off_policy_estimates. unfold bind at 1.
  destruct (estimate_policy_values sa self) as [[[pv|e] self1] evs1]; auto.
  unfold bind at 1.
  destruct (estimate_intervals sa alpha n rs self1) as [[[iv|e] self2] evs2]; auto.
  unfold ret. now rewrite app_nil_r.
Qed.




End EvaluationTraces.


(** ** Contents and purity of input construction *)

Section InputContents.
Context {RM : Type} {RMops : RegressionModel RM}.
Implicit Type self : OffPolicyEvaluation RM.

Lemma create_inputs_frame sa self :
  final_self (_create_estimator_inputs sa self) = self.
Proof.
  destruct (create_inputs_run sa self) as (r & evs & -> & _). reflexivity.
Qed.

(** The outcome is a function of the feedback, the action context
    and the regression model. *)
Lemma create_inputs_outcome_ext sa self self' :
  bandit_feedback self = bandit_feedback self' ->
  action_context self = action_context self' ->
  regression_model self = regression_model self' ->
  _create_estimator_inputs sa self =
  (outcome (_create_estimator_inputs sa self'), self,
   trace (_create_estimator_inputs sa self')).
Proof.
  intros Hbf Hac Hrm. unfold outcome, trace, _create_estimator_inputs. run_monad.
  rewrite Hbf, Hac, Hrm.
  destruct (Np.fancy_index2 _ _ _); simpl; auto.
  destruct (Np.equal _ _); simpl; auto.
  destruct (regression_model self'); simpl; auto.
  unfold call. destruct (predict _ _ _ _); reflexivity.
Qed.

Lemma create_inputs_contents sa self inputs :
  outcome (_create_estimator_inputs sa self) = Ok inputs ->
  Dict.get inputs "reward" = Some (FloatArray (reward (bandit_feedback self))) /\
  Dict.get inputs "pscore" = Some (FloatArray (pscore (bandit_feedback self))) /\
  match regression_model self with
  | Some rm =>
      exists est,
        predict rm (bandit_feedback self) (action_context self) sa = Ok est /\
        Dict.get inputs "estimated_rewards_by_reg_model" = Some (Float3Array est) /\
        Dict.keys inputs =
          ["reward"; "pscore"; "action_match"; "estimated_rewards_by_reg_model"]%string
  | None =>
      Dict.get inputs "estimated_rewards_by_reg_model" = None /\
      Dict.keys inputs = ["reward"; "pscore"; "action_match"]%string
  end.
Proof.
  unfold outcome, _create_estimator_inputs. run_monad.
  destruct (Np.fancy_index2 _ _ _); simpl; [|discriminate].
  destruct (Np.equal _ _); simpl; [|discriminate].
  destruct (regression_model self) as [rm|]; simpl.
  - unfold call. destruct (predict _ _ _ _) as [est|] eqn:Epred; simpl;
      intros H; inversion H; subst.
    repeat split; auto. exists est. auto.
  - intros H; inversion H; subst. auto.
Qed.

End InputContents.

(** C5: for an orchestrator constructed with regression model [rm]
    (present or absent), the inputs built by
    [_create_estimator_inputs] contain the key
    [estimated_rewards_by_reg_model] if and only if a model was given;
    when present it holds the output of the stored model's [predict]
    on the feedback, the action context and the selected actions; the
    inputs always hold the feedback's [reward] and [pscore]. *)
Theorem estimated_rewards_present_iff_model_configured
    (RM : Type) (RMops : RegressionModel RM)
    (bf : BanditFeedback) (es : list BaseOffPolicyEstimator)
    (ac : option (list (list float))) (rm : option RM)
    (self : OffPolicyEvaluation RM) (evs : list Event)
    (sa : Np.ndarray2) (inputs : EstimatorInputs) :
  OffPolicyEvaluation_init bf es ac rm = (Ok self, evs) ->
  outcome (_create_estimator_inputs sa self) = Ok inputs ->
  (Dict.mem inputs "estimated_rewards_by_reg_model" = true <-> rm <> None) /\
  (In "estimated_rewards_by_reg_model"%string (Dict.keys inputs) <-> rm <> None) /\
  (forall m, regression_model self = Some m ->
     exists est,
       predict m bf ac sa = Ok est /\
       Dict.get inputs "estimated_rewards_by_reg_model" = Some (Float3Array est)) /\
  (rm = None -> Dict.get inputs "estimated_rewards_by_reg_model" = None) /\
  Dict.get inputs "reward" = Some (FloatArray (reward bf)) /\
  Dict.get inputs "pscore" = Some (FloatArray (pscore bf)).
Proof.
  intros Hinit Hin.
  assert (Hself : bandit_feedback self = bf /\ action_context self = ac /\
                  (regression_model self = None <-> rm = None)).
  { rewrite init_run in Hinit. destruct rm as [m|]; simpl in Hinit.
    - destruct (check_is_fitted m).
      + inversion Hinit; subst; simpl. repeat split; discriminate.
      + destruct (fit m bf ac); inversion Hinit; subst; simpl.
        repeat split; discriminate.
    - inversion Hinit; subst; simpl. repeat split; auto. }
  destruct Hself as (Hbf & Hac & Hrm).
  destruct (create_inputs_contents sa self inputs Hin) as (Hreward & Hpscore & Hest).
  rewrite Hbf in Hreward, Hpscore. rewrite Hbf, Hac in Hest.
  assert (Hmem : Dict.mem inputs "estimated_rewards_by_reg_model" = true <-> rm <> None).
  { unfold Dict.mem. destruct (regression_model self) as [m|].
    - destruct Hest as (est & _ & -> & _). split; auto. intros _ Heq.
      apply Hrm in Heq. discriminate.
    - destruct Hest as [-> _]. split; [discriminate|]. intros Hne.
      exfalso. apply Hne, Hrm. reflexivity. }
  split; [exact Hmem|].
  split; [rewrite <- Hmem; symmetry; apply DictFacts.mem_true_iff|].
  split; [|split; [|split; assumption]].
  - intros m Hm. rewrite Hm in Hest. destruct Hest as (est & Hp & Hg & _). eauto.
  - intros Hnone. apply Hrm in Hnone. rewrite Hnone in Hest. tauto.
Qed.

(** An unfitted model is fitted at construction and its prediction is
    stored in the inputs. *)
Lemma estimated_rewards_present_iff_model_configured_witness :
  exists self evs inputs,
    OffPolicyEvaluation_init (RMops := Sample.flag_model) Sample.feedback
      [Sample.ipw] None (Some false) = (Ok self, evs) /\
    outcome (_create_estimator_inputs (RMops := Sample.flag_model)
               Sample.selected_actions self) = Ok inputs /\
    Dict.mem inputs "estimated_rewards_by_reg_model" = true.
Proof.
  eexists. eexists. eexists.
  split; [reflexivity|]. split; [reflexivity|].
  apply (estimated_rewards_present_iff_model_configured bool Sample.flag_model
           Sample.feedback [Sample.ipw] None (Some false) _ _
           Sample.selected_actions _ eq_refl eq_refl).
  discriminate.
Defined.

(** C6: input construction is deterministic. Two consecutive
    invocations on the same orchestrator with the same selected
    actions have the same outcome (the same inputs, key by key and
    value by value, or the same exception) and make the same calls;
    and two orchestrators with the same feedback, action context and
    regression model build the same inputs. *)
Theorem create_estimator_inputs_deterministic
    (RM : Type) (RMops : RegressionModel RM) (sa : Np.ndarray2) :
  (forall self : OffPolicyEvaluation RM,
     let first := _create_estimator_inputs sa self in
     let second := _create_estimator_inputs sa (final_self first) in
     outcome second = outcome first /\ trace second = trace first) /\
  (forall self self' : OffPolicyEvaluation RM,
     bandit_feedback self = bandit_feedback self' ->
     action_context self = action_context self' ->
     regression_model self = regression_model self' ->
     outcome (_create_estimator_inputs sa self) =
     outcome (_create_estimator_inputs sa self')).
Proof.
  split.
  - intros self first second. unfold second, first.
    rewrite create_inputs_frame. auto.
  - intros self self' Hbf Hac Hrm.
    now rewrite (create_inputs_outcome_ext sa self self' Hbf Hac Hrm).
Qed.

(** Two orchestrators over the same feedback with different
    estimator lists build the same inputs. *)
Lemma create_estimator_inputs_deterministic_witness :
  outcome (_create_estimator_inputs (RMops := Sample.no_model)
             Sample.selected_actions (Sample.plain Sample.feedback [Sample.ipw])) =
  outcome (_create_estimator_inputs (RMops := Sample.no_model)
             Sample.selected_actions (Sample.plain Sample.feedback [])).
Proof.
  apply (proj2 (create_estimator_inputs_deterministic Empty_set Sample.no_model
                  Sample.selected_actions)); reflexivity.
Defined.

(** C7: [_create_estimator_inputs] leaves the orchestrator as it
    found it, whether it returns or raises: the bandit feedback, the
    estimator list and registry, the action context and the regression
    model are the same after the call. *)
Theorem create_estimator_inputs_preserves_state
    (RM : Type) (RMops : RegressionModel RM)
    (self : OffPolicyEvaluation RM) (sa : Np.ndarray2) :
  let self' := final_self (_create_estimator_inputs sa self) in
  self' = self /\
  bandit_feedback self' = bandit_feedback self /\
  ope_estimators self' = ope_estimators self /\
  ope_estimators_ self' = ope_estimators_ self /\
  action_context self' = action_context self /\
  regression_model self' = regression_model self.
Proof.
  simpl. rewrite create_inputs_frame. repeat split.
Qed.

(** ** Point estimation *)

Section DispatchFacts.
Context {E V : Type} (g : string -> E -> result V).

Lemma attempted_incl entries entry :
  In entry (attempted g entries) -> In entry entries.
Proof.
  destruct (attempted_prefix g entries) as [rest Hrest]. intros H.
  rewrite Hrest. apply in_or_app. now left.
Qed.

Lemma attempted_wf entries : Dict.wf entries -> Dict.wf (attempted g entries).
Proof.
  destruct (attempted_prefix g entries) as [rest Hrest]. intros H.
  rewrite Hrest in H. eapply wf_prefix; eauto.
Qed.

End DispatchFacts.

Section PointEstimation.
Context {RM : Type} {RMops : RegressionModel RM}.
Implicit Type self : OffPolicyEvaluation RM.

Lemma estimate_policy_values_frame sa self :
  final_self (estimate_policy_values sa self) = self.
Proof.
  rewrite estimate_policy_values_run.
  destruct (create_inputs_run sa self) as (r & evs & -> & _).
  destruct r; reflexivity.
Qed.

Lemma count_point_calls name inputs (entries : list (string * BaseOffPolicyEstimator)) :
  count (is_estimate_policy_value name)
    (map (fun entry => Ev_estimate_policy_value (fst entry) inputs) entries) =
  length (filter (fun entry => String.eqb (fst entry) name) entries).
Proof. apply count_map. Qed.

Lemma count_interval_calls name inputs alpha n rs
    (entries : list (string * BaseOffPolicyEstimator)) :
  count (is_estimate_interval name)
    (map (fun entry => Ev_estimate_interval (fst entry) inputs alpha n rs) entries) =
  length (filter (fun entry => String.eqb (fst entry) name) entries).
Proof. apply count_map. Qed.

End PointEstimation.

(** C8: one call of [estimate_policy_values] builds the estimator
    inputs exactly once; every point-estimate call it makes goes to a
    registered estimator, with the inputs built in that call, and no
    estimator is called twice; when the call returns, every registered
    estimator was called exactly once, in registry order, the keys of
    the returned mapping are exactly the registry's names and each
    value is that estimator's point estimate on the shared inputs; and
    the call does return whenever the inputs are built and every
    registered estimator returns. *)
Theorem estimate_policy_values_shares_one_payload
    (RM : Type) (RMops : RegressionModel RM)
    (self : OffPolicyEvaluation RM) (sa : Np.ndarray2) :
  Dict.wf (ope_estimators_ self) ->
  let run := estimate_policy_values sa self in
  let built := _create_estimator_inputs sa self in
  count is_create_estimator_inputs (trace run) = 1%nat /\
  (forall name, (count (is_estimate_policy_value name) (trace run) <= 1)%nat) /\
  (forall name p,
     In (Ev_estimate_policy_value name p) (trace run) ->
     outcome built = Ok p /\ In name (Dict.keys (ope_estimators_ self))) /\
  (forall d,
     outcome run = Ok d ->
     exists inputs,
       outcome built = Ok inputs /\
       trace run =
         trace built ++
         map (fun entry => Ev_estimate_policy_value (fst entry) inputs)
           (Dict.items (ope_estimators_ self)) /\
       (forall name, In name (Dict.keys (ope_estimators_ self)) ->
          count (is_estimate_policy_value name) (trace run) = 1%nat) /\
       Dict.keys d = Dict.keys (ope_estimators_ self) /\
       (forall name e,
          Dict.get (ope_estimators_ self) name = Some e ->
          exists v, estimate_policy_value e inputs = Ok v /\
                    Dict.get d name = Some v)) /\
  (forall inputs,
     outcome built = Ok inputs ->
     Forall (returns (point_of inputs)) (ope_estimators_ self) ->
     exists d, outcome run = Ok d).
Proof.
  intros Hwf run built. unfold run, built. clear run built.
  rewrite estimate_policy_values_run.
  destruct (create_inputs_run sa self) as (r & evs & -> & Hevs & _).
  assert (Hcreate : count is_create_estimator_inputs
                      (Ev_create_estimator_inputs sa :: evs) = 1%nat).
  { destruct Hevs as [->| ->]; reflexivity. }
  assert (Hnopoint : forall name,
            count (is_estimate_policy_value name)
              (Ev_create_estimator_inputs sa :: evs) = 0%nat).
  { intros name. destruct Hevs as [->| ->]; reflexivity. }
  destruct r as [inputs|e]; unfold outcome, trace; simpl.
  - set (reg := ope_estimators_ self) in *.
    split; [|split; [|split; [|split]]].
    + change (count is_create_estimator_inputs
                ((Ev_create_estimator_inputs sa :: evs) ++
                 map (fun entry => Ev_estimate_policy_value (fst entry) inputs)
                   (attempted (point_of inputs) reg)) = 1%nat).
      rewrite count_app, Hcreate, count_map_none; auto.
    + intros name.
      change (count (is_estimate_policy_value name)
                ((Ev_create_estimator_inputs sa :: evs) ++
                 map (fun entry => Ev_estimate_policy_value (fst entry) inputs)
                   (attempted (point_of inputs) reg)) <= 1)%nat.
      rewrite count_app, Hnopoint, count_point_calls. simpl.
      apply named_entries_le, attempted_wf, Hwf.
    + intros name p [Hhd|Htl]; [discriminate|].
      apply in_app_or in Htl. destruct Htl as [Htl|Htl].
      * destruct Hevs as [->| ->]; simpl in Htl; [tauto|].
        destruct Htl as [Htl|[]]; discriminate.
      * apply in_map_iff in Htl. destruct Htl as ([n e] & Heq & Hin).
        simpl in Heq. inversion Heq; subst. split; auto.
        apply attempted_incl in Hin. apply (in_map fst) in Hin. exact Hin.
    + intros d Hd. exists inputs. split; [reflexivity|].
      pose proof (collect_ok_returns _ _ _ _ Hd) as Hall.
      rewrite (attempted_all _ _ Hall).
      destruct (collect_registry _ _ _ Hwf Hd) as [Hkeys Hget].
      split; [reflexivity|]. split; [|split; [exact Hkeys|exact Hget]].
      intros name Hname.
      change (count (is_estimate_policy_value name)
                ((Ev_create_estimator_inputs sa :: evs) ++
                 map (fun entry => Ev_estimate_policy_value (fst entry) inputs)
                   reg) = 1%nat).
      rewrite count_app, Hnopoint, count_point_calls. simpl.
      now apply named_entries_once.
    + intros inputs' Heq Hall. inversion Heq; subst inputs'.
      apply collect_total, Hall.
  - split; [exact Hcreate|]. split; [|split; [|split]].
    + intros name. rewrite Hnopoint. lia.
    + intros name p [Hhd|Htl]; [discriminate|].
      destruct Hevs as [->| ->]; simpl in Htl; [tauto|].
      destruct Htl as [Htl|[]]; discriminate.
    + intros d Hd. discriminate.
    + intros inputs Heq. discriminate.
Qed.

(** Two registered estimators on the scenario of the specification:
    both are called once and both values are reported. *)
Lemma estimate_policy_values_shares_one_payload_witness :
  let self := Sample.plain Sample.feedback [Sample.rm_a; Sample.ipw] in
  let run := estimate_policy_values (RMops := Sample.no_model)
               Sample.selected_actions self in
  Dict.wf (ope_estimators_ self) /\
  count is_create_estimator_inputs (trace run) = 1%nat /\
  outcome run = Ok [("rm"%string, 0.5%float); ("ipw"%string, 0.75%float)].
Proof.
  assert (Hwf : Dict.wf (ope_estimators_
                  (Sample.plain Sample.feedback [Sample.rm_a; Sample.ipw]))).
  { repeat constructor; simpl; intuition discriminate. }
  split; [exact Hwf|]. split.
  - apply (estimate_policy_values_shares_one_payload Empty_set Sample.no_model
             (Sample.plain Sample.feedback [Sample.rm_a; Sample.ipw])
             Sample.selected_actions Hwf).
  - reflexivity.
Defined.

(** ** Frames *)

Module PdFacts.
Import Pd.
Local Abbreviation cell := Pd_cell.

Lemma existsb_eqb_in k acc : existsb (String.eqb k) acc = true <-> In k acc.
Proof.
  rewrite existsb_exists. split.
  - intros (x & Hx & Heq). apply String.eqb_eq in Heq. now subst.
  - intros H. exists k. split; auto. apply String.eqb_refl.
Qed.

Lemma fold_keys_known ks : forall seen,
  (forall k, In k ks -> In k seen) ->
  fold_left (fun acc k => if existsb (String.eqb k) acc then acc else acc ++ [k])
    ks seen = seen.
Proof.
  induction ks as [|k ks IH]; intros seen H; simpl; auto.
  replace (existsb (String.eqb k) seen) with true.
  - apply IH. intros k' Hk'. apply H. now right.
  - symmetry. apply existsb_eqb_in, H. now left.
Qed.

Lemma fold_keys_fresh ks : forall seen,
  NoDup (seen ++ ks) ->
  fold_left (fun acc k => if existsb (String.eqb k) acc then acc else acc ++ [k])
    ks seen = seen ++ ks.
Proof.
  induction ks as [|k ks IH]; intros seen Hnd; simpl.
  - now rewrite app_nil_r.
  - replace (existsb (String.eqb k) seen) with false.
    + rewrite IH; rewrite <- app_assoc; auto.
    + symmetry. apply not_true_is_false. intros H. apply existsb_eqb_in in H.
      apply NoDup_remove_2 in Hnd. apply Hnd. apply in_or_app. now left.
Qed.

Lemma union_keys_known ds : forall seen,
  Forall (fun ks => forall k, In k ks -> In k seen) ds ->
  union_keys seen ds = seen.
Proof.
  induction ds as [|ks ds IH]; intros seen H; simpl; auto.
  inversion H; subst. rewrite fold_keys_known by assumption. now apply IH.
Qed.

(** Inner dictionaries that all have the keys [ks]: the row labels
    are [ks]. *)
Lemma union_keys_uniform ks ds :
  NoDup ks -> ds <> [] -> Forall (fun ks' => ks' = ks) ds ->
  union_keys [] ds = ks.
Proof.
  intros Hnd Hne Hall. destruct ds as [|ks0 ds]; [congruence|].
  inversion Hall; subst. simpl.
  rewrite (fold_keys_fresh ks []) by exact Hnd. simpl.
  apply union_keys_known. eapply Forall_impl; [|eassumption].
  intros ks' -> k Hk. exact Hk.
Qed.

Lemma cells_of_own_keys (d : Dict.dict float) :
  Dict.wf d -> map (cell d) (Dict.keys d) = Dict.values d.
Proof.
  unfold Dict.wf. induction d as [|[k v] d IH]; intros Hnd; simpl; auto.
  inversion Hnd; subst. unfold cell at 1. simpl. rewrite String.eqb_refl.
  f_equal. rewrite <- IH by assumption.
  apply map_ext_in. intros r Hr. unfold cell. simpl.
  destruct (String.eqb_spec k r); [subst; contradiction | reflexivity].
Qed.

Lemma rows_by_position {A B} (F : A -> B) (l : list A) (dflt : A) :
  map (fun j => F (nth j l dflt)) (seq 0 (length l)) = map F l.
Proof.
  induction l as [|x l IH]; simpl; auto.
  f_equal. rewrite <- seq_shift, map_map. exact IH.
Qed.

(** The transposed frame of a dict of dicts: one row per outer key,
    holding that entry's cells at the row labels of the frame. *)
Lemma transposed_from_dicts (d : Dict.dict (Dict.dict float)) :
  let labels := union_keys [] (map (@Dict.keys float) (Dict.values d)) in
  index (T (from_dicts d)) = Dict.keys d /\
  columns (T (from_dicts d)) = labels /\
  data (T (from_dicts d)) = map (fun col => map (cell col) labels) (Dict.values d).
Proof.
  simpl. repeat split.
  set (labels := union_keys [] (map (@Dict.keys float) (Dict.values d))).
  replace (length (Dict.keys d)) with (length (Dict.values d))
    by (unfold Dict.keys, Dict.values; now rewrite !length_map).
  rewrite <- (rows_by_position (fun col => map (cell col) labels) (Dict.values d) []).
  apply map_ext. intros j. rewrite map_map. apply map_ext. intros r.
  change PrimFloat.nan with (cell [] r).
  change (fun col : Dict.dict float =>
            match Dict.get col r with Some x => x | None => PrimFloat.nan end)
    with (fun col => cell col r).
  apply (map_nth (fun col => cell col r)).
Qed.

Lemma fold_keys_in ks : forall seen k,
  In k (fold_left (fun acc k => if existsb (String.eqb k) acc then acc else acc ++ [k])
          ks seen) <-> In k seen \/ In k ks.
Proof.
  induction ks as [|k0 ks IH]; intros seen k; simpl.
  - tauto.
  - rewrite IH. destruct (existsb (String.eqb k0) seen) eqn:E.
    + apply existsb_eqb_in in E. split; [tauto|].
      intros [H|[<-|H]]; auto.
    + rewrite in_app_iff. simpl. tauto.
Qed.

(** The row labels of a frame built from a dict of dicts are exactly
    the keys that occur in some inner dict. *)
Lemma union_keys_in ds : forall seen k,
  In k (union_keys seen ds) <-> In k seen \/ exists ks, In ks ds /\ In k ks.
Proof.
  induction ds as [|ks0 ds IH]; intros seen k; simpl.
  - split; [tauto|]. intros [H|(ks & [] & _)]. exact H.
  - rewrite IH, fold_keys_in. split.
    + intros [[H|H]|(ks & Hks & Hk)]; eauto.
    + intros [H|(ks & [<-|Hks] & Hk)]; eauto.
Qed.

End PdFacts.

(** ** Summary tables *)

Section SummaryFacts.
Context {RM : Type} {RMops : RegressionModel RM}.
Implicit Type self : OffPolicyEvaluation RM.

Lemma count_map_all {A} p (f : A -> Event) l :
  (forall x, p (f x) = true) -> count p (map f l) = length l.
Proof.
  intros H. rewrite count_map. induction l as [|x l IH]; simpl; auto.
  rewrite H. simpl. now rewrite IH.
Qed.

Lemma create_inputs_no_estimator_call sa self :
  count is_estimator_call (trace (_create_estimator_inputs sa self)) = 0%nat /\
  forall name,
    count (is_estimate_policy_value name) (trace (_create_estimator_inputs sa self)) = 0%nat /\
    count (is_estimate_interval name) (trace (_create_estimator_inputs sa self)) = 0%nat.
Proof.
  destruct (create_inputs_run sa self) as (r & evs & -> & [->| ->] & _);
    repeat split.
Qed.

Lemma estimate_policy_values_returns sa self d :
  outcome (estimate_policy_values sa self) = Ok d ->
  exists inputs,
    outcome (_create_estimator_inputs sa self) = Ok inputs /\
    collect (point_of inputs) (ope_estimators_ self) [] = Ok d /\
    trace (estimate_policy_values sa self) =
      trace (_create_estimator_inputs sa self) ++
      map (fun entry => Ev_estimate_policy_value (fst entry) inputs)
        (ope_estimators_ self).
Proof.
  rewrite estimate_policy_values_run.
  destruct (create_inputs_run sa self) as (r & evs & -> & _).
  destruct r as [inputs|e]; unfold outcome, trace; simpl; [|discriminate].
  intros Hd. exists inputs. repeat split; auto.
  now rewrite (attempted_all _ _ (collect_ok_returns _ _ _ _ Hd)).
Qed.

Lemma estimate_intervals_returns sa alpha n rs self d :
  outcome (estimate_intervals sa alpha n rs self) = Ok d ->
  exists inputs,
    outcome (_create_estimator_inputs sa self) = Ok inputs /\
    collect (interval_of inputs alpha n rs) (ope_estimators_ self) [] = Ok d /\
    trace (estimate_intervals sa alpha n rs self) =
      trace (_create_estimator_inputs sa self) ++
      map (fun entry => Ev_estimate_interval (fst entry) inputs alpha n rs)
        (ope_estimators_ self).
Proof.
  rewrite estimate_intervals_run.
  destruct (create_inputs_run sa self) as (r & evs & -> & _).
  destruct r as [inputs|e]; unfold outcome, trace; simpl; [|discriminate].
  intros Hd. exists inputs. repeat split; auto.
  now rewrite (attempted_all _ _ (collect_ok_returns _ _ _ _ Hd)).
Qed.

Lemma singleton_rows (l : list float) :
  map (fun j => [nth j l PrimFloat.nan]) (seq 0 (length l)) = map (fun v => [v]) l.
Proof.
  induction l as [|x l IH]; simpl; auto.
  f_equal. rewrite <- seq_shift, map_map. exact IH.
Qed.

Lemma point_table pv :
  let df := Pd.T (Pd.from_scalars pv ["estimated_policy_value"%string]) in
  Pd.index df = Dict.keys pv /\
  Pd.columns df = ["estimated_policy_value"%string] /\
  Pd.data df = map (fun v => [v]) (Dict.values pv).
Proof.
  simpl. repeat split.
  replace (length (Dict.keys pv)) with (length (Dict.values pv)).
  - apply singleton_rows.
  - unfold Dict.keys, Dict.values. now rewrite !length_map.
Qed.

End SummaryFacts.

(** C9: [summarize_off_policy_estimates] makes the calls of one
    [estimate_policy_values] followed by those of one
    [estimate_intervals] and nothing else; when it returns, every
    registered estimator's point operation and interval operation were
    each invoked exactly once. The point-estimate table has one row
    per registered name, in registry order (the order of first
    registration), holding exactly the value of the mapping returned
    by [estimate_policy_values]. The interval table has one row per
    registered name, in the same order; its columns are exactly the
    keys that occur in the estimators' intervals, the cell of a row at
    a column is that estimator's interval value under that key ([nan]
    when it has none), and when all estimators report the same keys
    the columns are those keys and each row is that estimator's
    interval values. The call returns whenever both operations
    return. *)
Theorem summary_tables_reshape_single_evaluation
    (RM : Type) (RMops : RegressionModel RM)
    (self : OffPolicyEvaluation RM) (sa : Np.ndarray2)
    (alpha : float) (n : Z) (rs : option Z) :
  Dict.wf (ope_estimators_ self) ->
  let run := summarize_off_policy_estimates sa alpha n rs self in
  (forall df_point df_interval,
     outcome run = Ok (df_point, df_interval) ->
     exists pv iv,
       outcome (estimate_policy_values sa self) = Ok pv /\
       outcome (estimate_intervals sa alpha n rs self) = Ok iv /\
       trace run = trace (estimate_policy_values sa self) ++
                   trace (estimate_intervals sa alpha n rs self) /\
       df_point = Pd.T (Pd.from_scalars pv ["estimated_policy_value"%string]) /\
       df_interval = Pd.T (Pd.from_dicts iv) /\
       (forall name, In name (Dict.keys (ope_estimators_ self)) ->
          count (is_estimate_policy_value name) (trace run) = 1%nat /\
          count (is_estimate_interval name) (trace run) = 1%nat) /\
       count is_estimator_call (trace run) =
         (2 * length (ope_estimators_ self))%nat /\
       Pd.index df_point = Dict.keys pv /\
       Dict.keys pv = Dict.keys (ope_estimators_ self) /\
       Pd.columns df_point = ["estimated_policy_value"%string] /\
       Pd.data df_point = map (fun v => [v]) (Dict.values pv) /\
       (ope_estimators_ self = registry_of (ope_estimators self) ->
        Pd.index df_point = registration_order (ope_estimators self)) /\
       Pd.index df_interval = Dict.keys (ope_estimators_ self) /\
       Dict.keys iv = Dict.keys (ope_estimators_ self) /\
       (forall name e,
          Dict.get (ope_estimators_ self) name = Some e ->
          exists inputs interval,
            outcome (_create_estimator_inputs sa self) = Ok inputs /\
            estimate_interval e inputs alpha n rs = Ok interval /\
            Dict.get iv name = Some interval) /\
       (forall key,
          In key (Pd.columns df_interval) <->
          exists interval, In interval (Dict.values iv) /\
                           In key (Dict.keys interval)) /\
       Pd.data df_interval =
         map (fun interval =>
                map (fun key => match Dict.get interval key with
                                | Some x => x
                                | None => PrimFloat.nan
                                end) (Pd.columns df_interval))
             (Dict.values iv) /\
       (forall ks,
          ope_estimators_ self <> [] ->
          NoDup ks ->
          Forall (fun interval => Dict.keys interval = ks) (Dict.values iv) ->
          Pd.columns df_interval = ks /\
          Pd.data df_interval = map (@Dict.values float) (Dict.values iv))) /\
  (forall pv iv,
     outcome (estimate_policy_values sa self) = Ok pv ->
     outcome (estimate_intervals sa alpha n rs self) = Ok iv ->
     outcome run =
       Ok (Pd.T (Pd.from_scalars pv ["estimated_policy_value"%string]),
           Pd.T (Pd.from_dicts iv))).
Proof.
  intros Hwf run. unfold run. clear run.
  rewrite summarize_off_policy_estimates_run.
  pose proof (estimate_policy_values_frame sa self) as Hframe.
  pose proof (estimate_policy_values_returns sa self) as Hpoint.
  destruct (estimate_policy_values sa self) as [[[pv|e] self1] evs1];
    unfold final_self in Hframe; simpl in Hframe; subst self1.
  2:{ unfold outcome, trace; simpl. split; intros; discriminate. }
  destruct (Hpoint pv eq_refl) as (inputs1 & _ & Hcollect1 & Htrace1).
  unfold trace at 1 in Htrace1. simpl in Htrace1. clear Hpoint.
  pose proof (estimate_intervals_returns sa alpha n rs self) as Hint.
  destruct (estimate_intervals sa alpha n rs self) as [[[iv|e] self2] evs2].
  2:{ unfold outcome, trace; simpl. split; intros; discriminate. }
  destruct (Hint iv eq_refl) as (inputs2 & Hin2 & Hcollect2 & Htrace2).
  unfold trace at 1 in Htrace2. simpl in Htrace2. clear Hint.
  destruct (collect_registry _ _ _ Hwf Hcollect1) as [Hkeys _].
  destruct (collect_registry _ _ _ Hwf Hcollect2) as [Hkeys2 Hget2].
  destruct (create_inputs_no_estimator_call sa self) as [Hnocall Hnoname].
  set (evs0 := trace (_create_estimator_inputs sa self)) in *.
  unfold outcome at 1 4, trace at 1 2 3 4 5 6; simpl. split.
  - intros df_point df_interval Heq. inversion Heq; subst df_point df_interval.
    exists pv, iv.
    destruct (point_table pv) as (Hindex & Hcolumns & Hdata).
    destruct (PdFacts.transposed_from_dicts iv) as (Hindex2 & Hcolumns2 & Hdata2).
    split; [reflexivity|]. split; [reflexivity|]. split; [reflexivity|].
    split; [reflexivity|]. split; [reflexivity|].
    split; [|split; [|split; [exact Hindex|split; [exact Hkeys|
      split; [exact Hcolumns|split; [exact Hdata|split]]]]]].
    + intros name Hname. destruct (Hnoname name) as [Hp Hi].
      rewrite Htrace1, Htrace2, !count_app, Hp, Hi.
      rewrite count_point_calls, count_interval_calls.
      rewrite (count_map_none (is_estimate_policy_value name)) by reflexivity.
      rewrite (count_map_none (is_estimate_interval name)) by reflexivity.
      rewrite named_entries_once by assumption. split; reflexivity.
    + rewrite Htrace1, Htrace2, !count_app, Hnocall.
      rewrite !count_map_all by reflexivity. lia.
    + intros Hreg. rewrite Hindex, Hkeys, Hreg. apply registry_of_keys.
    + split; [now rewrite Hindex2|]. split; [exact Hkeys2|]. split; [|split; [|split]].
      * intros name e He. destruct (Hget2 name e He) as (v & Hv & Hiv).
        exists inputs2, v. auto.
      * intros key. rewrite Hcolumns2, PdFacts.union_keys_in. split.
        -- intros [[]|(ks & Hks & Hk)]. apply in_map_iff in Hks.
           destruct Hks as (d & <- & Hd). eauto.
        -- intros (d & Hd & Hk). right. exists (Dict.keys d). split; auto.
           now apply in_map.
      * rewrite Hdata2, Hcolumns2. reflexivity.
      * intros ks Hne Hnd Hall.
        assert (Hlabels :
          Pd.union_keys [] (map (@Dict.keys float) (Dict.values iv)) = ks).
        { apply PdFacts.union_keys_uniform; auto.
          - destruct iv; [|discriminate]. simpl in Hkeys2.
            destruct (ope_estimators_ self); [congruence | discriminate].
          - apply Forall_forall. intros ks' Hks'. apply in_map_iff in Hks'.
            destruct Hks' as (d & <- & Hd). rewrite Forall_forall in Hall. auto. }
        split; [now rewrite Hcolumns2|].
        rewrite Hdata2, Hlabels. apply map_ext_in. intros d Hd.
        rewrite Forall_forall in Hall. rewrite <- (Hall d Hd).
        apply PdFacts.cells_of_own_keys. unfold Dict.wf. now rewrite (Hall d Hd).
  - intros pv' iv' Hpv Hiv. inversion Hpv; inversion Hiv; subst. reflexivity.
Qed.

(** Three estimators, two of them named "rm": one row per
    registered name in both tables, in order of first registration. *)
Lemma summary_tables_reshape_single_evaluation_witness :
  let self := Sample.plain Sample.feedback [Sample.rm_a; Sample.ipw; Sample.rm_b] in
  let run := summarize_off_policy_estimates (RMops := Sample.no_model)
               Sample.selected_actions 0.5%float 100 None self in
  exists df_point df_interval,
    outcome run = Ok (df_point, df_interval) /\
    Pd.index df_point = ["rm"%string; "ipw"%string] /\
    Pd.data df_point = [[0.25%float]; [0.75%float]] /\
    count is_estimator_call (trace run) = 4%nat /\
    Pd.index df_interval = ["rm"%string; "ipw"%string] /\
    Pd.columns df_interval = ["mean"%string; "lower"%string; "upper"%string] /\
    Pd.data df_interval =
      [[0.25%float; 0.25%float; 0.25%float]; [0.75%float; 0.75%float; 0.75%float]].
Proof.
  assert (Hwf : Dict.wf (ope_estimators_
            (Sample.plain Sample.feedback [Sample.rm_a; Sample.ipw; Sample.rm_b]))).
  { repeat constructor; simpl; intuition discriminate. }
  destruct (proj1 (summary_tables_reshape_single_evaluation Empty_set Sample.no_model
              (Sample.plain Sample.feedback [Sample.rm_a; Sample.ipw; Sample.rm_b])
              Sample.selected_actions 0.5%float 100 None Hwf) _ _ eq_refl)
    as (pv & iv & Hpv & Hiv & _ & _ & _ & _ & Hcalls & Hindex & Hkeys & _ & Hdata
        & _ & Hindex2 & _ & _ & _ & _ & Huniform).
  eexists. eexists. split; [reflexivity|].
  inversion Hpv; subst pv. inversion Hiv; subst iv.
  split; [exact Hindex|]. split; [exact Hdata|]. split; [exact Hcalls|].
  split; [exact Hindex2|].
  apply (Huniform ["mean"%string; "lower"%string; "upper"%string]).
  - discriminate.
  - repeat constructor; simpl; intuition discriminate.
  - repeat constructor.
Defined.

(** ** Ground-truth comparison *)

Section ScalarFacts.

Lemma scalar_value_sub a b :
  scalar_value (scalar_sub a b) = PrimFloat.sub (scalar_value a) (scalar_value b).
Proof. destruct a, b; reflexivity. Qed.

Lemma is_numpy_sub a b : is_numpy (scalar_sub a b) = is_numpy a || is_numpy b.
Proof. destruct a, b; reflexivity. Qed.

Lemma scalar_truediv_value a b q :
  scalar_truediv a b = Ok q ->
  scalar_value q = PrimFloat.div (scalar_value a) (scalar_value b).
Proof.
  destruct a, b; simpl; try (intros H; inversion H; reflexivity).
  destruct (PrimFloat.eqb x0 0%float); intros H; inversion H; reflexivity.
Qed.

(** The division raises only on two built-in floats with a zero
    divisor. *)
Lemma scalar_truediv_raises a b e :
  scalar_truediv a b = Raise e ->
  e = ZeroDivisionError /\ is_numpy a = false /\ is_numpy b = false /\
  PrimFloat.eqb (scalar_value b) 0%float = true.
Proof.
  destruct a, b; simpl; try discriminate.
  destruct (PrimFloat.eqb x0 0%float) eqn:E; intros H; inversion H. auto.
Qed.

Lemma scalar_truediv_returns a b :
  PrimFloat.eqb (scalar_value b) 0%float = false \/
  is_numpy b = true \/ is_numpy a = true ->
  exists q, scalar_truediv a b = Ok q.
Proof.
  destruct a, b; simpl; intros H; eauto.
  destruct H as [->|[H|H]]; eauto; discriminate.
Qed.

Lemma scalar_truediv_python_zero x y :
  PrimFloat.eqb y 0%float = true ->
  scalar_truediv (PyFloat x) (PyFloat y) = Raise ZeroDivisionError.
Proof. intros H. simpl. now rewrite H. Qed.

End ScalarFacts.

Section PerformanceFacts.
Context {RM : Type} {RMops : RegressionModel RM}.
Implicit Type self : OffPolicyEvaluation RM.

(** When the division is safe for an entry: the ground truth is not
    zero, or the ground truth or the estimate is a NumPy scalar. *)
Lemma relative_error_of_ok inputs truth name e r :
  relative_error_of inputs truth name e = Ok r ->
  exists v,
    estimate_policy_value e inputs = Ok v /\
    (PrimFloat.eqb (scalar_value truth) 0%float = false \/
     is_numpy truth = true \/ returns_numpy_scalar e inputs = true) /\
    r = PrimFloat.abs
          (PrimFloat.div (PrimFloat.sub v (scalar_value truth)) (scalar_value truth)).
Proof.
  unfold relative_error_of, estimate_policy_value_scalar.
  destruct (estimate_policy_value e inputs) as [v|]; simpl; [|discriminate].
  set (s := if returns_numpy_scalar e inputs then NpFloat64 v else PyFloat v).
  assert (Hs : scalar_value s = v /\ is_numpy s = returns_numpy_scalar e inputs).
  { unfold s. destruct (returns_numpy_scalar e inputs); auto. }
  destruct Hs as [Hval Hnp].
  destruct (scalar_truediv (scalar_sub s truth) truth) as [q|exc] eqn:Ediv; simpl;
    [|discriminate].
  intros H. inversion H; subst r. exists v. split; [reflexivity|]. split.
  - destruct (PrimFloat.eqb (scalar_value truth) 0%float) eqn:Ez; auto. right.
    destruct (is_numpy truth) eqn:Et; auto. right.
    destruct (returns_numpy_scalar e inputs) eqn:Ee; auto. exfalso.
    destruct truth as [t|t]; [|discriminate]. unfold s in Ediv. simpl in *.
    rewrite Ez in Ediv. discriminate.
  - unfold np_abs. rewrite (scalar_truediv_value _ _ _ Ediv), scalar_value_sub, Hval.
    reflexivity.
Qed.

Lemma relative_error_of_returns inputs truth entry :
  returns (point_of inputs) entry ->
  PrimFloat.eqb (scalar_value truth) 0%float = false \/
  is_numpy truth = true \/ returns_numpy_scalar (snd entry) inputs = true ->
  returns (relative_error_of inputs truth) entry.
Proof.
  intros [v Hv] Hsafe.
  unfold returns, relative_error_of, estimate_policy_value_scalar, point_of in *.
  rewrite Hv. simpl.
  set (s := if returns_numpy_scalar (snd entry) inputs then NpFloat64 v else PyFloat v).
  destruct (scalar_truediv_returns (scalar_sub s truth) truth) as [q ->].
  - rewrite is_numpy_sub. destruct Hsafe as [H|[H|H]]; auto.
    right. right. unfold s. rewrite H. reflexivity.
  - simpl. eauto.
Qed.

Lemma relative_error_of_python_zero inputs t name e v :
  PrimFloat.eqb t 0%float = true ->
  estimate_policy_value e inputs = Ok v ->
  returns_numpy_scalar e inputs = false ->
  relative_error_of inputs (PyFloat t) name e = Raise ZeroDivisionError.
Proof.
  intros Hz Hv Hpy. unfold relative_error_of, estimate_policy_value_scalar.
  rewrite Hv. simpl. rewrite Hpy. simpl. now rewrite Hz.
Qed.

End PerformanceFacts.

(** C2 (as amended): whenever [evaluate_performance_of_estimators]
    returns, the mapping has exactly the registry's names and the value
    for each registered estimator is [abs((estimate - ground_truth) /
    ground_truth)] in binary64 arithmetic on the shared inputs; it
    returns whenever the inputs are built, every estimator returns and,
    for each of them, the ground truth is not zero or the ground truth
    or the estimate is a NumPy scalar. With a zero ground truth the
    outcome depends on the operands: when the ground truth and the
    first registered estimator's estimate are built-in floats the
    division raises [ZeroDivisionError]; when the ground truth is a
    [numpy.float64] nothing is raised by the division and every
    reported value is the IEEE quotient's absolute value (an infinity
    or a NaN); and with no registered estimator the empty mapping is
    returned. *)
Theorem relative_error_formula_and_zero_ground_truth
    (RM : Type) (RMops : RegressionModel RM)
    (self : OffPolicyEvaluation RM) (sa : Np.ndarray2) (truth : scalar) :
  Dict.wf (ope_estimators_ self) ->
  let run := evaluate_performance_of_estimators sa truth self in
  let built := _create_estimator_inputs sa self in
  let t := scalar_value truth in
  (forall d,
     outcome run = Ok d ->
     Dict.keys d = Dict.keys (ope_estimators_ self) /\
     forall name e,
       Dict.get (ope_estimators_ self) name = Some e ->
       exists inputs v,
         outcome built = Ok inputs /\
         estimate_policy_value e inputs = Ok v /\
         (PrimFloat.eqb t 0%float = false \/ is_numpy truth = true \/
          returns_numpy_scalar e inputs = true) /\
         Dict.get d name =
           Some (PrimFloat.abs (PrimFloat.div (PrimFloat.sub v t) t))) /\
  (forall inputs,
     outcome built = Ok inputs ->
     Forall (fun entry =>
               returns (point_of inputs) entry /\
               (PrimFloat.eqb t 0%float = false \/ is_numpy truth = true \/
                returns_numpy_scalar (snd entry) inputs = true))
            (ope_estimators_ self) ->
     exists d, outcome run = Ok d) /\
  (PrimFloat.eqb t 0%float = true ->
   (forall inputs name e rest v,
      outcome built = Ok inputs ->
      ope_estimators_ self = (name, e) :: rest ->
      is_numpy truth = false ->
      estimate_policy_value e inputs = Ok v ->
      returns_numpy_scalar e inputs = false ->
      outcome run = Raise ZeroDivisionError) /\
   (forall inputs,
      outcome built = Ok inputs ->
      is_numpy truth = true ->
      Forall (returns (point_of inputs)) (ope_estimators_ self) ->
      exists d,
        outcome run = Ok d /\
        forall name e v,
          Dict.get (ope_estimators_ self) name = Some e ->
          estimate_policy_value e inputs = Ok v ->
          Dict.get d name =
            Some (PrimFloat.abs (PrimFloat.div (PrimFloat.sub v t) t))) /\
   (forall inputs,
      outcome built = Ok inputs -> ope_estimators_ self = [] ->
      outcome run = Ok [])).
Proof.
  intros Hwf run built t. unfold run, built, t. clear run built t.
  rewrite evaluate_performance_of_estimators_run.
  destruct (create_inputs_run sa self) as (r & evs & -> & _).
  destruct r as [inputs|e]; unfold outcome; simpl.
  2:{ repeat split; intros; discriminate. }
  assert (Hformula : forall d,
    collect (relative_error_of inputs truth) (ope_estimators_ self) [] = Ok d ->
    Dict.keys d = Dict.keys (ope_estimators_ self) /\
    forall name e,
      Dict.get (ope_estimators_ self) name = Some e ->
      exists v,
        estimate_policy_value e inputs = Ok v /\
        (PrimFloat.eqb (scalar_value truth) 0%float = false \/
         is_numpy truth = true \/ returns_numpy_scalar e inputs = true) /\
        Dict.get d name =
          Some (PrimFloat.abs
                  (PrimFloat.div (PrimFloat.sub v (scalar_value truth))
                     (scalar_value truth)))).
  { intros d Hd. destruct (collect_registry _ _ _ Hwf Hd) as [Hkeys Hget].
    split; [exact Hkeys|]. intros name e He.
    destruct (Hget name e He) as (r & Hr & Hdr).
    apply relative_error_of_ok in Hr. destruct Hr as (v & Hv & Hsafe & ->).
    exists v. auto. }
  split; [|split].
  - intros d Hd. destruct (Hformula d Hd) as [Hkeys Hget].
    split; [exact Hkeys|]. intros name e He.
    destruct (Hget name e He) as (v & Hv & Hsafe & Hdn).
    exists inputs, v. auto.
  - intros inputs' Heq Hall. inversion Heq; subst inputs'.
    apply collect_total. eapply Forall_impl; [|exact Hall].
    intros entry [Hret Hsafe]. now apply relative_error_of_returns.
  - intros Hz. split; [|split].
    + intros inputs' name e rest v Heq -> Hpy Hv He. inversion Heq; subst inputs'.
      destruct truth as [t|t]; [|discriminate]. simpl in Hz. simpl.
      now rewrite (relative_error_of_python_zero inputs t name e v Hz Hv He).
    + intros inputs' Heq Hnp Hall. inversion Heq; subst inputs'.
      destruct (collect_total (relative_error_of inputs truth)
                  (ope_estimators_ self) []) as [d Hd].
      { eapply Forall_impl; [|exact Hall].
        intros entry Hret. apply relative_error_of_returns; auto. }
      exists d. split; [exact Hd|]. intros name e v He Hv.
      destruct (proj2 (Hformula d Hd) name e He) as (v' & Hv' & _ & Hdn).
      congruence.
    + intros inputs' _ ->. reflexivity.
Qed.

(** Ground truth 0.25 against estimates 0.5 and 0.75: relative errors 1
    and 2. *)
Lemma relative_error_formula_and_zero_ground_truth_witness :
  let self := Sample.plain Sample.feedback [Sample.rm_a; Sample.ipw] in
  Dict.wf (ope_estimators_ self) /\
  outcome (evaluate_performance_of_estimators (RMops := Sample.no_model)
             Sample.selected_actions 0.25%float self) =
    Ok [("rm"%string, 1%float); ("ipw"%string, 2%float)] /\
  Dict.keys [("rm"%string, 1%float); ("ipw"%string, 2%float)] =
    Dict.keys (ope_estimators_ self).
Proof.
  assert (Hwf : Dict.wf (ope_estimators_
                  (Sample.plain Sample.feedback [Sample.rm_a; Sample.ipw]))).
  { repeat constructor; simpl; intuition discriminate. }
  split; [exact Hwf|]. split; [reflexivity|].
  apply (proj1 (relative_error_formula_and_zero_ground_truth Empty_set
                  Sample.no_model
                  (Sample.plain Sample.feedback [Sample.rm_a; Sample.ipw])
                  Sample.selected_actions 0.25%float Hwf) _ eq_refl).
Defined.

(** C2, as stated, fails: with a [numpy.float64] zero as ground truth
    (what [reward.mean()] of an all-zero test set is) and two
    registered estimators, the division does not fail; both estimators
    are invoked and the call returns a mapping of infinities, where the
    statement promises a division-by-zero failure and no value; the
    same happens with a built-in zero and an estimator that returns a
    [numpy.float64]. *)
Lemma zero_numpy_ground_truth_returns_infinities :
  exists self evs,
    OffPolicyEvaluation_init (RMops := Sample.no_model) Sample.feedback
      [Sample.rm_a; Sample.ipw] None None = (Ok self, evs) /\
    PrimFloat.eqb (scalar_value (NpFloat64 0%float)) 0%float = true /\
    outcome (evaluate_performance_of_estimators (RMops := Sample.no_model)
               Sample.selected_actions (NpFloat64 0%float) self) =
      Ok [("rm"%string, PrimFloat.infinity); ("ipw"%string, PrimFloat.infinity)] /\
    count is_estimator_call
      (trace (evaluate_performance_of_estimators (RMops := Sample.no_model)
                Sample.selected_actions (NpFloat64 0%float) self)) = 2%nat /\
    outcome (evaluate_performance_of_estimators (RMops := Sample.no_model)
               Sample.selected_actions (PyFloat 0%float)
               (Sample.plain Sample.feedback [Sample2.dr])) =
      Ok [("dr"%string, PrimFloat.infinity)].
Proof.
  eexists. eexists. split; [reflexivity|]. split; [reflexivity|].
  split; [reflexivity|]. split; reflexivity.
Qed.

(** ** Empty estimator list *)

Section EmptyRegistry.
Context {RM : Type} {RMops : RegressionModel RM}.
Implicit Type self : OffPolicyEvaluation RM.

(** With nothing registered, the three dispatching operations do
    what input construction does and return the empty mapping after
    it. *)
Lemma empty_registry_runs self sa alpha n rs truth :
  ope_estimators_ self = [] ->
  let built := _create_estimator_inputs sa self in
  (outcome (estimate_policy_values sa self) = rbind (outcome built) (fun _ => Ok []) /\
   trace (estimate_policy_values sa self) = trace built) /\
  (outcome (estimate_intervals sa alpha n rs self) =
     rbind (outcome built) (fun _ => Ok []) /\
   trace (estimate_intervals sa alpha n rs self) = trace built) /\
  (outcome (evaluate_performance_of_estimators sa truth self) =
     rbind (outcome built) (fun _ => Ok []) /\
   trace (evaluate_performance_of_estimators sa truth self) = trace built).
Proof.
  intros Hreg. simpl.
  rewrite estimate_policy_values_run, estimate_intervals_run,
    evaluate_performance_of_estimators_run.
  destruct (create_inputs_run sa self) as (r & evs & -> & _).
  unfold outcome, trace. destruct r; simpl; rewrite ?Hreg; simpl;
    rewrite ?app_nil_r; auto.
Qed.

End EmptyRegistry.

(** C10 (as amended): with an empty estimator list, construction
    succeeds whenever predictor resolution does not raise, and the
    registry is empty; no evaluation operation then invokes any
    estimator; [estimate_policy_values], [estimate_intervals] and
    [evaluate_performance_of_estimators] return the empty mapping for
    every selected-actions input on which input construction succeeds,
    which it does whenever the feedback is well formed, the matrix has
    shape (n_rounds, len_list), the logged positions index into the
    rankings and the predictor, if any, predicts; when input
    construction raises, they raise the same exception. *)
Theorem empty_estimator_list_yields_empty_mappings
    (RM : Type) (RMops : RegressionModel RM)
    (bf : BanditFeedback) (ac : option (list (list float))) (rm : option RM) :
  (forall m, rm = Some m ->
     check_is_fitted m = true \/ exists m', fit m bf ac = Ok m') ->
  exists self evs,
    OffPolicyEvaluation_init bf [] ac rm = (Ok self, evs) /\
    ope_estimators_ self = [] /\
    forall sa alpha n rs truth,
      let built := _create_estimator_inputs sa self in
      let point := estimate_policy_values sa self in
      let interval := estimate_intervals sa alpha n rs self in
      let performance := evaluate_performance_of_estimators sa truth self in
      count is_estimator_call (trace point) = 0%nat /\
      count is_estimator_call (trace interval) = 0%nat /\
      count is_estimator_call (trace performance) = 0%nat /\
      (forall inputs,
         outcome built = Ok inputs ->
         outcome point = Ok [] /\ outcome interval = Ok [] /\
         outcome performance = Ok []) /\
      (forall e,
         outcome built = Raise e ->
         outcome point = Raise e /\ outcome interval = Raise e /\
         outcome performance = Raise e) /\
      (forall len_list,
         well_formed (bandit_feedback self) ->
         Np.has_shape sa (Z.to_nat (n_rounds (bandit_feedback self))) len_list ->
         positions_within (bandit_feedback self) len_list ->
         (forall m, regression_model self = Some m ->
            exists est,
              predict m (bandit_feedback self) (action_context self) sa = Ok est) ->
         outcome point = Ok [] /\ outcome interval = Ok [] /\
         outcome performance = Ok []).
Proof.
  intros Hrm.
  destruct (init_succeeds bf [] ac rm Hrm) as (self & evs & Hinit & Hreg & _).
  exists self, evs. split; [exact Hinit|]. split; [exact Hreg|].
  intros sa alpha n rs truth. simpl.
  destruct (empty_registry_runs self sa alpha n rs truth Hreg)
    as ((Ho1 & Ht1) & (Ho2 & Ht2) & (Ho3 & Ht3)).
  rewrite Ho1, Ho2, Ho3, Ht1, Ht2, Ht3.
  destruct (create_inputs_no_estimator_call sa self) as [Hnocall _].
  split; [exact Hnocall|]. split; [exact Hnocall|]. split; [exact Hnocall|].
  split; [|split].
  - intros inputs ->. auto.
  - intros e ->. auto.
  - intros len_list Hwf Hshape Hpos Hpred.
    destruct (create_inputs_total sa self len_list Hwf Hshape Hpos Hpred)
      as [inputs ->]. auto.
Qed.

(** The scenario of the specification with no estimator: the three
    operations return the empty mapping. *)
Lemma empty_estimator_list_yields_empty_mappings_witness :
  exists self evs,
    OffPolicyEvaluation_init (RMops := Sample.no_model) Sample.feedback [] None None
      = (Ok self, evs) /\
    outcome (estimate_policy_values (RMops := Sample.no_model)
               Sample.selected_actions self) = Ok [] /\
    outcome (estimate_intervals (RMops := Sample.no_model)
               Sample.selected_actions 0.5%float 100 None self) = Ok [] /\
    outcome (evaluate_performance_of_estimators (RMops := Sample.no_model)
               Sample.selected_actions 0.25%float self) = Ok [].
Proof.
  destruct (empty_estimator_list_yields_empty_mappings Empty_set Sample.no_model
              Sample.feedback None None)
    as (self & evs & Hinit & Hreg & Hcalls).
  - intros m. destruct m.
  - exists self, evs. split; [exact Hinit|].
    destruct (Hcalls Sample.selected_actions 0.5%float 100 None 0.25%float)
      as (_ & _ & _ & _ & _ & Htotal).
    assert (Hbf : bandit_feedback self = Sample.feedback).
    { vm_compute in Hinit. inversion Hinit. reflexivity. }
    assert (Hnone : regression_model self = None).
    { vm_compute in Hinit. inversion Hinit. reflexivity. }
    apply (Htotal 2%nat).
    + rewrite Hbf. unfold well_formed. simpl. repeat split; reflexivity || lia.
    + rewrite Hbf. split; [reflexivity | repeat constructor].
    + rewrite Hbf. unfold positions_within. simpl. repeat constructor; lia.
    + intros m Hm. rewrite Hnone in Hm. discriminate.
Defined.

(** C10, as stated, fails: with no estimator and no regression model,
    a round logged at slot 2 and a policy that proposes one action per
    round, input construction raises [IndexError] and so do the three
    operations, where the statement promises an empty mapping for
    every selected-actions input. *)
Lemma empty_estimator_list_still_raises_on_bad_position :
  exists self evs,
    OffPolicyEvaluation_init (RMops := Sample.no_model) Sample.feedback_slot2 []
      None None = (Ok self, evs) /\
    well_formed Sample.feedback_slot2 /\
    Np.has_shape Sample.single_slot 1 1 /\
    outcome (estimate_policy_values (RMops := Sample.no_model)
               Sample.single_slot self) = Raise IndexError /\
    outcome (estimate_intervals (RMops := Sample.no_model)
               Sample.single_slot 0.5%float 100 None self) = Raise IndexError /\
    outcome (evaluate_performance_of_estimators (RMops := Sample.no_model)
               Sample.single_slot 0.25%float self) = Raise IndexError.
Proof.
  eexists. eexists. split; [reflexivity|].
  split; [unfold well_formed; simpl; repeat split; reflexivity || lia|].
  split; [split; [reflexivity | repeat constructor]|].
  repeat split; reflexivity.
Qed.

(** * Further properties of the dispatch operations *)

Section DispatchFailure.
Context {E V : Type} (g : string -> E -> result V).

Lemma collect_first_failure pre name e post exc : forall acc,
  Forall (returns g) pre ->
  g name e = Raise exc ->
  collect g (pre ++ (name, e) :: post) acc = Raise exc /\
  attempted g (pre ++ (name, e) :: post) = pre ++ [(name, e)].
Proof.
  induction pre as [|[n0 e0] pre IH]; intros acc Hpre Hfail; simpl.
  - rewrite Hfail. auto.
  - inversion Hpre as [|? ? [v Hv] Hrest]; subst. simpl in Hv. rewrite Hv. simpl.
    destruct (IH (Dict.set acc n0 v) Hrest Hfail) as [-> ->]. auto.
Qed.

Lemma keys_disjoint_of_wf (pre post : list (string * E)) name e name' :
  Dict.wf (pre ++ (name, e) :: post) ->
  In name' (Dict.keys post) ->
  ~ In name' (Dict.keys (pre ++ [(name, e)])).
Proof.
  unfold Dict.wf, Dict.keys. rewrite !map_app. simpl. intros Hnd Hpost Hin.
  apply in_app_or in Hin.
  assert (Hsplit : map fst pre ++ fst (name, e) :: map fst post =
                   (map fst pre ++ [name]) ++ map fst post).
  { rewrite <- app_assoc. reflexivity. }
  simpl in Hnd. change (name :: map fst post) with ([name] ++ map fst post) in Hnd.
  rewrite app_assoc in Hnd.
  apply NoDup_app_remove_l in Hnd as Hnd'.
  destruct Hin as [Hin|[Hin|[]]].
  - clear Hsplit Hnd'. induction (map fst pre) as [|k ks IHks]; simpl in *.
    + contradiction.
    + inversion Hnd; subst. destruct Hin as [->|Hin].
      * apply H1. apply in_or_app. right. exact Hpost.
      * apply IHks; auto.
  - subst name'. clear Hsplit Hnd'.
    induction (map fst pre) as [|k ks IHks]; simpl in *.
    + inversion Hnd; subst. contradiction.
    + inversion Hnd; subst. apply IHks; auto.
Qed.

End DispatchFailure.

Section DispatchMore.
Context {RM : Type} {RMops : RegressionModel RM}.
Implicit Type self : OffPolicyEvaluation RM.

Lemma set_relative_errors truth acc name v :
  Dict.set (relative_errors truth acc) name
    (PrimFloat.abs (PrimFloat.div (PrimFloat.sub v truth) truth)) =
  relative_errors truth (Dict.set acc name v).
Proof.
  unfold relative_errors. induction acc as [|[k w] acc IH]; simpl; auto.
  destruct (String.eqb k name); simpl; [reflexivity | now rewrite IH].
Qed.

(** For a non-zero ground truth the division never raises, whatever
    the kinds of the operands. *)
Lemma relative_error_of_nonzero inputs truth name e :
  PrimFloat.eqb (scalar_value truth) 0%float = false ->
  relative_error_of inputs truth name e =
  rbind (estimate_policy_value e inputs) (fun v =>
    Ok (PrimFloat.abs
          (PrimFloat.div (PrimFloat.sub v (scalar_value truth)) (scalar_value truth)))).
Proof.
  intros Hnz. unfold relative_error_of, estimate_policy_value_scalar.
  destruct (estimate_policy_value e inputs) as [v|]; simpl; auto.
  destruct (returns_numpy_scalar e inputs); destruct truth as [t|t]; simpl in *;
    rewrite ?Hnz; reflexivity.
Qed.

Lemma collect_relative_errors inputs truth entries : forall acc,
  PrimFloat.eqb (scalar_value truth) 0%float = false ->
  collect (relative_error_of inputs truth) entries
    (relative_errors (scalar_value truth) acc) =
  rbind (collect (point_of inputs) entries acc)
        (fun d => Ok (relative_errors (scalar_value truth) d)).
Proof.
  induction entries as [|[n e] entries IH]; intros acc Hnz; simpl; auto.
  rewrite relative_error_of_nonzero by assumption. unfold point_of at 1.
  destruct (estimate_policy_value e inputs) as [v|]; simpl; auto.
  rewrite set_relative_errors. now apply IH.
Qed.

Lemma attempted_relative_errors inputs truth entries :
  PrimFloat.eqb (scalar_value truth) 0%float = false ->
  attempted (relative_error_of inputs truth) entries =
  attempted (point_of inputs) entries.
Proof.
  intros Hnz. induction entries as [|[n e] entries IH]; simpl; auto.
  rewrite relative_error_of_nonzero by assumption. unfold point_of at 1.
  destruct (estimate_policy_value e inputs) as [v|]; simpl; auto.
  now rewrite IH.
Qed.

End DispatchMore.

(** X1: one call of [estimate_intervals] builds the estimator inputs
    exactly once; every interval call it makes goes to a registered
    estimator with the inputs built in that call and with the caller's
    [alpha], [n_bootstrap_samples] and [random_state] unchanged; when
    the call returns, every registered estimator's interval operation
    was invoked exactly once, the mapping's keys are the registry's
    names and each value is that estimator's interval; the call
    returns whenever the inputs are built and every estimator's
    interval operation returns. *)
Theorem estimate_intervals_forwards_parameters
    (RM : Type) (RMops : RegressionModel RM)
    (self : OffPolicyEvaluation RM) (sa : Np.ndarray2)
    (alpha : float) (n : Z) (rs : option Z) :
  Dict.wf (ope_estimators_ self) ->
  let run := estimate_intervals sa alpha n rs self in
  let built := _create_estimator_inputs sa self in
  count is_create_estimator_inputs (trace run) = 1%nat /\
  (forall name p a k r,
     In (Ev_estimate_interval name p a k r) (trace run) ->
     outcome built = Ok p /\ a = alpha /\ k = n /\ r = rs /\
     In name (Dict.keys (ope_estimators_ self))) /\
  (forall d,
     outcome run = Ok d ->
     exists inputs,
       outcome built = Ok inputs /\
       Dict.keys d = Dict.keys (ope_estimators_ self) /\
       (forall name, In name (Dict.keys (ope_estimators_ self)) ->
          count (is_estimate_interval name) (trace run) = 1%nat) /\
       (forall name e,
          Dict.get (ope_estimators_ self) name = Some e ->
          exists v, estimate_interval e inputs alpha n rs = Ok v /\
                    Dict.get d name = Some v)) /\
  (forall inputs,
     outcome built = Ok inputs ->
     Forall (returns (interval_of inputs alpha n rs)) (ope_estimators_ self) ->
     exists d, outcome run = Ok d).
Proof.
  intros Hwf run built. unfold run, built. clear run built.
  rewrite estimate_intervals_run.
  destruct (create_inputs_no_estimator_call sa self) as [_ Hnoname].
  destruct (create_inputs_run sa self) as (r & evs & Hrun & Hevs & _).
  rewrite Hrun in *. unfold trace in Hnoname. simpl in Hnoname.
  assert (Hcreate : count is_create_estimator_inputs
                      (Ev_create_estimator_inputs sa :: evs) = 1%nat).
  { destruct Hevs as [->| ->]; reflexivity. }
  assert (Hnotin : forall name p a k r0,
            ~ In (Ev_estimate_interval name p a k r0)
                 (Ev_create_estimator_inputs sa :: evs)).
  { intros name p a k r0 [H|H]; [discriminate|].
    destruct Hevs as [->| ->]; simpl in H; [tauto|].
    destruct H as [H|[]]; discriminate. }
  destruct r as [inputs|e]; unfold outcome, trace; simpl.
  - split; [|split; [|split]].
    + change (count is_create_estimator_inputs
                ((Ev_create_estimator_inputs sa :: evs) ++
                 map (fun entry => Ev_estimate_interval (fst entry) inputs alpha n rs)
                   (attempted (interval_of inputs alpha n rs) (ope_estimators_ self)))
              = 1%nat).
      rewrite count_app, Hcreate, count_map_none; auto.
    + intros name p a k r0 Hin.
      change (In (Ev_estimate_interval name p a k r0)
                ((Ev_create_estimator_inputs sa :: evs) ++
                 map (fun entry => Ev_estimate_interval (fst entry) inputs alpha n rs)
                   (attempted (interval_of inputs alpha n rs) (ope_estimators_ self))))
        in Hin.
      apply in_app_or in Hin. destruct Hin as [Hin|Hin].
      * exfalso. eapply Hnotin; eauto.
      * apply in_map_iff in Hin. destruct Hin as ([n0 e0] & Heq & Hin).
        simpl in Heq. inversion Heq; subst. repeat split; auto.
        apply attempted_incl in Hin. apply (in_map fst) in Hin. exact Hin.
    + intros d Hd. exists inputs. split; [reflexivity|].
      pose proof (collect_ok_returns _ _ _ _ Hd) as Hall.
      destruct (collect_registry _ _ _ Hwf Hd) as [Hkeys Hget].
      split; [exact Hkeys|]. split; [|exact Hget].
      intros name Hname. rewrite (attempted_all _ _ Hall).
      change (count (is_estimate_interval name)
                ((Ev_create_estimator_inputs sa :: evs) ++
                 map (fun entry => Ev_estimate_interval (fst entry) inputs alpha n rs)
                   (ope_estimators_ self)) = 1%nat).
      rewrite count_app, count_interval_calls.
      rewrite (proj2 (Hnoname name)). simpl. now apply named_entries_once.
    + intros inputs' Heq Hall. inversion Heq; subst inputs'.
      apply collect_total, Hall.
  - split; [exact Hcreate|]. split; [|split].
    + intros name p a k r0 Hin. exfalso. eapply Hnotin; eauto.
    + intros d Hd. discriminate.
    + intros inputs Heq. discriminate.
Qed.

(** Two estimators on the scenario: both intervals are reported. *)
Lemma estimate_intervals_forwards_parameters_witness :
  let self := Sample.plain Sample.feedback [Sample.rm_a; Sample.ipw] in
  let run := estimate_intervals (RMops := Sample.no_model)
               Sample.selected_actions 0.5%float 100 (Some 12345) self in
  count is_create_estimator_inputs (trace run) = 1%nat /\
  exists d, outcome run = Ok d /\ Dict.keys d = ["rm"%string; "ipw"%string].
Proof.
  assert (Hwf : Dict.wf (ope_estimators_
                  (Sample.plain Sample.feedback [Sample.rm_a; Sample.ipw]))).
  { repeat constructor; simpl; intuition discriminate. }
  destruct (estimate_intervals_forwards_parameters Empty_set Sample.no_model
              (Sample.plain Sample.feedback [Sample.rm_a; Sample.ipw])
              Sample.selected_actions 0.5%float 100 (Some 12345) Hwf)
    as (Hcreate & _ & Hret & _).
  split; [exact Hcreate|].
  eexists. split; [reflexivity|].
  destruct (Hret _ eq_refl) as (inputs & _ & Hkeys & _). exact Hkeys.
Defined.

(** X2: when a registered estimator's point operation raises,
    [estimate_policy_values] raises the same exception; the estimators
    registered before it were called, in registry order, and it was
    called last; no estimator registered after it is called. *)
Theorem estimate_policy_values_aborts_at_first_failure
    (RM : Type) (RMops : RegressionModel RM)
    (self : OffPolicyEvaluation RM) (sa : Np.ndarray2)
    (inputs : EstimatorInputs)
    (pre post : list (string * BaseOffPolicyEstimator))
    (name : string) (e : BaseOffPolicyEstimator) (exc : exn) :
  Dict.wf (ope_estimators_ self) ->
  outcome (_create_estimator_inputs sa self) = Ok inputs ->
  ope_estimators_ self = pre ++ (name, e) :: post ->
  Forall (returns (point_of inputs)) pre ->
  estimate_policy_value e inputs = Raise exc ->
  let run := estimate_policy_values sa self in
  outcome run = Raise exc /\
  trace run =
    trace (_create_estimator_inputs sa self) ++
    map (fun entry => Ev_estimate_policy_value (fst entry) inputs)
      (pre ++ [(name, e)]) /\
  (forall name', In name' (Dict.keys post) ->
     count (is_estimate_policy_value name') (trace run) = 0%nat).
Proof.
  intros Hwf Hin Hreg Hpre Hfail run. unfold run. clear run.
  rewrite estimate_policy_values_run.
  destruct (create_inputs_no_estimator_call sa self) as [_ Hnoname].
  destruct (create_inputs_run sa self) as (r & evs & Hrun & _).
  rewrite Hrun in *. unfold outcome in Hin. simpl in Hin. subst r.
  unfold trace in Hnoname. simpl in Hnoname.
  destruct (collect_first_failure (point_of inputs) pre name e post exc []
              Hpre Hfail) as [Hcollect Hatt].
  unfold outcome, trace. simpl. rewrite Hreg, Hcollect, Hatt.
  split; [reflexivity|]. split; [reflexivity|].
  intros name' Hname'.
  change (count (is_estimate_policy_value name')
            ((Ev_create_estimator_inputs sa :: evs) ++
             map (fun entry => Ev_estimate_policy_value (fst entry) inputs)
               (pre ++ [(name, e)])) = 0%nat).
  rewrite count_app, count_point_calls, (proj1 (Hnoname name')). simpl.
  apply named_entries_absent. rewrite Hreg in Hwf.
  eapply keys_disjoint_of_wf; eauto.
Qed.

(** "rm" returns, "dm" raises, "ipw" is never asked. *)
Lemma estimate_policy_values_aborts_at_first_failure_witness :
  let self := Sample.plain Sample.feedback [Sample.rm_a; Sample2.dm; Sample.ipw] in
  let run := estimate_policy_values (RMops := Sample.no_model)
               Sample.selected_actions self in
  outcome run = Raise ValueError /\
  count (is_estimate_policy_value "ipw") (trace run) = 0%nat.
Proof.
  assert (Hwf : Dict.wf (ope_estimators_
            (Sample.plain Sample.feedback [Sample.rm_a; Sample2.dm; Sample.ipw]))).
  { repeat constructor; simpl; intuition discriminate. }
  destruct (estimate_policy_values_aborts_at_first_failure Empty_set Sample.no_model
              (Sample.plain Sample.feedback [Sample.rm_a; Sample2.dm; Sample.ipw])
              Sample.selected_actions _
              [("rm"%string, Sample.rm_a)] [("ipw"%string, Sample.ipw)]
              "dm"%string Sample2.dm ValueError Hwf eq_refl eq_refl)
    as (Hout & _ & Hpost).
  - repeat constructor. exists 0.5%float. reflexivity.
  - reflexivity.
  - split; [exact Hout|]. apply Hpost. simpl. auto.
Defined.

(** X3: when a registered estimator's interval operation raises,
    [estimate_intervals] raises the same exception; the estimators
    registered before it were called, in registry order, and it was
    called last; no estimator registered after it is called. *)
Theorem estimate_intervals_aborts_at_first_failure
    (RM : Type) (RMops : RegressionModel RM)
    (self : OffPolicyEvaluation RM) (sa : Np.ndarray2)
    (alpha : float) (n : Z) (rs : option Z)
    (inputs : EstimatorInputs)
    (pre post : list (string * BaseOffPolicyEstimator))
    (name : string) (e : BaseOffPolicyEstimator) (exc : exn) :
  Dict.wf (ope_estimators_ self) ->
  outcome (_create_estimator_inputs sa self) = Ok inputs ->
  ope_estimators_ self = pre ++ (name, e) :: post ->
  Forall (returns (interval_of inputs alpha n rs)) pre ->
  estimate_interval e inputs alpha n rs = Raise exc ->
  let run := estimate_intervals sa alpha n rs self in
  outcome run = Raise exc /\
  trace run =
    trace (_create_estimator_inputs sa self) ++
    map (fun entry => Ev_estimate_interval (fst entry) inputs alpha n rs)
      (pre ++ [(name, e)]) /\
  (forall name', In name' (Dict.keys post) ->
     count (is_estimate_interval name') (trace run) = 0%nat).
Proof.
  intros Hwf Hin Hreg Hpre Hfail run. unfold run. clear run.
  rewrite estimate_intervals_run.
  destruct (create_inputs_no_estimator_call sa self) as [_ Hnoname].
  destruct (create_inputs_run sa self) as (r & evs & Hrun & _).
  rewrite Hrun in *. unfold outcome in Hin. simpl in Hin. subst r.
  unfold trace in Hnoname. simpl in Hnoname.
  destruct (collect_first_failure (interval_of inputs alpha n rs) pre name e post
              exc [] Hpre Hfail) as [Hcollect Hatt].
  unfold outcome, trace. simpl. rewrite Hreg, Hcollect, Hatt.
  split; [reflexivity|]. split; [reflexivity|].
  intros name' Hname'.
  change (count (is_estimate_interval name')
            ((Ev_create_estimator_inputs sa :: evs) ++
             map (fun entry => Ev_estimate_interval (fst entry) inputs alpha n rs)
               (pre ++ [(name, e)])) = 0%nat).
  rewrite count_app, count_interval_calls, (proj2 (Hnoname name')). simpl.
  apply named_entries_absent. rewrite Hreg in Hwf.
  eapply keys_disjoint_of_wf; eauto.
Qed.

(** "rm" returns its interval, "dm" raises, "ipw" is never asked. *)
Lemma estimate_intervals_aborts_at_first_failure_witness :
  let self := Sample.plain Sample.feedback [Sample.rm_a; Sample2.dm; Sample.ipw] in
  let run := estimate_intervals (RMops := Sample.no_model)
               Sample.selected_actions 0.5%float 100 None self in
  outcome run = Raise ValueError /\
  count (is_estimate_interval "ipw") (trace run) = 0%nat.
Proof.
  assert (Hwf : Dict.wf (ope_estimators_
            (Sample.plain Sample.feedback [Sample.rm_a; Sample2.dm; Sample.ipw]))).
  { repeat constructor; simpl; intuition discriminate. }
  destruct (estimate_intervals_aborts_at_first_failure Empty_set Sample.no_model
              (Sample.plain Sample.feedback [Sample.rm_a; Sample2.dm; Sample.ipw])
              Sample.selected_actions 0.5%float 100 None _
              [("rm"%string, Sample.rm_a)] [("ipw"%string, Sample.ipw)]
              "dm"%string Sample2.dm ValueError Hwf eq_refl eq_refl)
    as (Hout & _ & Hpost).
  - repeat constructor. eexists. reflexivity.
  - reflexivity.
  - split; [exact Hout|]. apply Hpost. simpl. auto.
Defined.

(** X4: for a non-zero ground truth (a built-in float or a
    [numpy.float64]), [evaluate_performance_of_estimators] makes
    exactly the calls of [estimate_policy_values], raises exactly when
    it raises (with the same exception), and otherwise returns its
    mapping with every estimate [v] replaced by [abs((v -
    ground_truth) / ground_truth)], names and order unchanged. *)
Theorem performance_is_relative_error_of_point_estimates
    (RM : Type) (RMops : RegressionModel RM)
    (self : OffPolicyEvaluation RM) (sa : Np.ndarray2) (truth : scalar) :
  PrimFloat.eqb (scalar_value truth) 0%float = false ->
  outcome (evaluate_performance_of_estimators sa truth self) =
    rbind (outcome (estimate_policy_values sa self))
          (fun policy_values =>
             Ok (relative_errors (scalar_value truth) policy_values)) /\
  trace (evaluate_performance_of_estimators sa truth self) =
    trace (estimate_policy_values sa self).
Proof.
  intros Hnz.
  rewrite evaluate_performance_of_estimators_run, estimate_policy_values_run.
  destruct (_create_estimator_inputs sa self) as [[[inputs|e] self1] evs0];
    unfold outcome, trace; simpl; auto.
  rewrite attempted_relative_errors by assumption. split; [|reflexivity].
  exact (collect_relative_errors inputs truth (ope_estimators_ self1) [] Hnz).
Qed.

(** Ground truth 0.25 on the scenario. *)
Lemma performance_is_relative_error_of_point_estimates_witness :
  let self := Sample.plain Sample.feedback [Sample.rm_a; Sample.ipw] in
  outcome (evaluate_performance_of_estimators (RMops := Sample.no_model)
             Sample.selected_actions 0.25%float self) =
  Ok (relative_errors 0.25%float [("rm"%string, 0.5%float); ("ipw"%string, 0.75%float)]).
Proof.
  exact (proj1 (performance_is_relative_error_of_point_estimates Empty_set
                  Sample.no_model
                  (Sample.plain Sample.feedback [Sample.rm_a; Sample.ipw])
                  Sample.selected_actions 0.25%float eq_refl)).
Defined.



(** * Further properties of input construction *)

Module NpMore.
Import Np.

Lemma normalize_index_raises len i e :
  normalize_index len i = Raise e -> e = IndexError.
Proof.
  unfold normalize_index.
  destruct ((0 <=? i) && (i <? Z.of_nat len)); [discriminate|].
  destruct ((- Z.of_nat len <=? i) && (i <? 0)); [discriminate|].
  congruence.
Qed.

Lemma normalize_index_out len i :
  out_of_bounds len i -> normalize_index len i = Raise IndexError.
Proof.
  unfold out_of_bounds, normalize_index. intros H.
  destruct (Z.leb_spec 0 i); destruct (Z.ltb_spec i (Z.of_nat len)); simpl;
    try lia;
    destruct (Z.leb_spec (- Z.of_nat len) i); destruct (Z.ltb_spec i 0); simpl;
    try lia; reflexivity.
Qed.

Lemma item2_raises a r c e : item2 a r c = Raise e -> e = IndexError.
Proof.
  unfold item2.
  destruct (normalize_index (length a) r) as [r'|e0] eqn:Er; simpl.
  - destruct (nth_error a r') as [row|]; [|congruence].
    destruct (normalize_index (length row) c) as [c'|e1] eqn:Ec; simpl.
    + destruct (nth_error row c'); congruence.
    + intros H. inversion H; subst. eapply normalize_index_raises; eauto.
  - intros H. inversion H; subst. eapply normalize_index_raises; eauto.
Qed.

Lemma mapM_raises {A B} (f : A -> result B) (exc : exn) xs :
  (forall x e, f x = Raise e -> e = exc) ->
  Exists (fun x => exists e, f x = Raise e) xs ->
  mapM f xs = Raise exc.
Proof.
  intros Honly. induction xs as [|x xs IH]; intros Hex.
  - inversion Hex.
  - simpl. destruct (f x) as [y|e] eqn:Ex; simpl.
    + inversion Hex as [? ? [e He]|? ? Htl]; subst; [congruence|].
      now rewrite (IH Htl).
    + f_equal. eapply Honly; eauto.
Qed.

Lemma mapM_ext_in {A B} (f g : A -> result B) xs :
  (forall x, In x xs -> f x = g x) -> mapM f xs = mapM g xs.
Proof.
  induction xs as [|x xs IH]; intros H; simpl; auto.
  rewrite (H x) by (now left). rewrite IH; auto.
  intros y Hy. apply H. now right.
Qed.

Lemma broadcast2_rows {A B} (xs : list A) (ys : list B) ixs rc :
  broadcast2 xs ys = Some ixs -> In rc ixs -> In (fst rc) xs.
Proof.
  unfold broadcast2. destruct (Nat.eqb (length xs) (length ys)).
  - intros H Hin. inversion H; subst. destruct rc as [r c].
    eapply in_combine_l; eauto.
  - destruct xs as [|x [|x' xs]].
    + destruct ys as [|y [|y' ys]]; intros H Hin; inversion H; subst.
      simpl in Hin. contradiction.
    + intros H Hin. inversion H; subst.
      apply in_map_iff in Hin. destruct Hin as (z & <- & Hz). simpl. auto.
    + destruct ys as [|y [|y' ys]]; intros H Hin; inversion H; subst.
      destruct Hin as [<-|[<-|Hin]]; simpl; auto.
      apply in_map_iff in Hin. destruct Hin as (z & <- & Hz). simpl. auto.
Qed.

Lemma in_arange r n :
  In r (arange n) -> exists i, r = Z.of_nat i /\ (i < Z.to_nat n)%nat.
Proof.
  unfold arange. intros H. apply in_map_iff in H. destruct H as (i & <- & Hi).
  apply in_seq in Hi. exists i. split; auto. lia.
Qed.

Lemma item2_app a extra i c :
  (i < length a)%nat -> item2 (a ++ extra) (Z.of_nat i) c = item2 a (Z.of_nat i) c.
Proof.
  intros Hi. unfold item2.
  rewrite !NpFacts.normalize_index_nat by (rewrite ?length_app; lia). simpl.
  now rewrite nth_error_app1.
Qed.

(** Rows of the matrix beyond the last row index are never read. *)
Lemma fancy_index2_extra_rows a extra n cols :
  (Z.to_nat n <= length a)%nat ->
  fancy_index2 (a ++ extra) (arange n) cols = fancy_index2 a (arange n) cols.
Proof.
  intros Hn. unfold fancy_index2.
  destruct (broadcast2 (arange n) cols) as [ixs|] eqn:Eb; auto.
  apply mapM_ext_in. intros rc Hin.
  apply (broadcast2_rows _ _ _ _ Eb) in Hin. apply in_arange in Hin.
  destruct Hin as (i & -> & Hi). apply item2_app. lia.
Qed.

(** A pair of indices that is out of bounds makes advanced indexing
    raise [IndexError]. *)
Lemma fancy_index2_raises a n cols i p :
  length cols = Z.to_nat n ->
  nth_error cols i = Some p ->
  (exists e, item2 a (Z.of_nat i) p = Raise e) ->
  fancy_index2 a (arange n) cols = Raise IndexError.
Proof.
  intros Hlen Hp Hbad. unfold fancy_index2.
  rewrite NpFacts.broadcast2_same_length by (now rewrite NpFacts.length_arange).
  apply mapM_raises.
  - intros rc e. apply item2_raises.
  - apply Exists_exists. exists (Z.of_nat i, p). split; [|exact Hbad].
    eapply nth_error_In. apply NpFacts.nth_error_combine; eauto.
    apply NpFacts.nth_error_arange. rewrite <- Hlen.
    apply nth_error_Some. congruence.
Qed.

End NpMore.

Section InputFailures.
Context {RM : Type} {RMops : RegressionModel RM}.
Implicit Type self : OffPolicyEvaluation RM.

Lemma create_inputs_index_error sa self :
  Np.fancy_index2 sa (Np.arange (n_rounds (bandit_feedback self)))
    (position (bandit_feedback self)) = Raise IndexError ->
  _create_estimator_inputs sa self =
  (Raise IndexError, self, [Ev_create_estimator_inputs sa]).
Proof.
  intros H. unfold _create_estimator_inputs. run_monad. now rewrite H.
Qed.

End InputFailures.

(** X6: for well-formed feedback and selected actions of shape
    (n_rounds, len_list), a logged position that is not a valid index
    into a ranking of length [len_list] makes
    [_create_estimator_inputs] raise [IndexError]; the regression
    model's [predict] is not called. *)
Theorem position_outside_ranking_raises_index_error
    (RM : Type) (RMops : RegressionModel RM)
    (self : OffPolicyEvaluation RM) (sa : Np.ndarray2) (len_list : nat) :
  well_formed (bandit_feedback self) ->
  Np.has_shape sa (Z.to_nat (n_rounds (bandit_feedback self))) len_list ->
  Exists (out_of_bounds len_list) (position (bandit_feedback self)) ->
  outcome (_create_estimator_inputs sa self) = Raise IndexError /\
  trace (_create_estimator_inputs sa self) = [Ev_create_estimator_inputs sa].
Proof.
  intros (Hn & Ha & Hp & _) [Hrows Hcols] Hex.
  apply Exists_exists in Hex. destruct Hex as (p & Hin & Hout).
  apply In_nth_error in Hin. destruct Hin as [i Hi].
  assert (Hlt : (i < length sa)%nat).
  { rewrite Hrows, <- Hp. apply nth_error_Some. congruence. }
  rewrite create_inputs_index_error; [split; reflexivity|].
  apply (NpMore.fancy_index2_raises sa _ _ i p Hp Hi).
  unfold Np.item2. rewrite NpFacts.normalize_index_nat by assumption. simpl.
  destruct (nth_error sa i) as [row|] eqn:Erow.
  - assert (Hlen : length row = len_list).
    { rewrite Forall_forall in Hcols. apply Hcols. eapply nth_error_In; eauto. }
    rewrite Hlen, (NpMore.normalize_index_out len_list p Hout). simpl. eauto.
  - eauto.
Qed.

(** A round logged at slot 2 against one-action rankings. *)
Lemma position_outside_ranking_raises_index_error_witness :
  outcome (_create_estimator_inputs (RMops := Sample.flag_model) Sample.single_slot
             (Sample2.with_model Sample.feedback_slot2 [Sample.ipw] true))
  = Raise IndexError.
Proof.
  apply (position_outside_ranking_raises_index_error bool Sample.flag_model
           (Sample2.with_model Sample.feedback_slot2 [Sample.ipw] true)
           Sample.single_slot 1%nat).
  - unfold well_formed. simpl. repeat split; reflexivity || lia.
  - split; [reflexivity | repeat constructor].
  - constructor. unfold out_of_bounds. simpl. lia.
Defined.

(** X7: for well-formed feedback, selected actions with fewer rows
    than [n_rounds] make [_create_estimator_inputs] raise
    [IndexError], without calling [predict]. *)
Theorem too_few_rows_raises_index_error
    (RM : Type) (RMops : RegressionModel RM)
    (self : OffPolicyEvaluation RM) (sa : Np.ndarray2) :
  well_formed (bandit_feedback self) ->
  (length sa < Z.to_nat (n_rounds (bandit_feedback self)))%nat ->
  outcome (_create_estimator_inputs sa self) = Raise IndexError /\
  trace (_create_estimator_inputs sa self) = [Ev_create_estimator_inputs sa].
Proof.
  intros (Hn & Ha & Hp & _) Hshort.
  destruct (nth_error (position (bandit_feedback self)) (length sa)) as [p|] eqn:Ep.
  2:{ apply nth_error_None in Ep. lia. }
  rewrite create_inputs_index_error; [split; reflexivity|].
  apply (NpMore.fancy_index2_raises sa _ _ (length sa) p Hp Ep).
  unfold Np.item2.
  rewrite (NpMore.normalize_index_out (length sa) (Z.of_nat (length sa))).
  - simpl. eauto.
  - unfold out_of_bounds. lia.
Qed.

(** Three logged rounds, two proposed rankings. *)
Lemma too_few_rows_raises_index_error_witness :
  outcome (_create_estimator_inputs (RMops := Sample.no_model) [[1; 2]; [0; 1]]
             (Sample.plain Sample.feedback []))
  = Raise IndexError.
Proof.
  apply (too_few_rows_raises_index_error Empty_set Sample.no_model
           (Sample.plain Sample.feedback []) [[1; 2]; [0; 1]]).
  - unfold well_formed. simpl. repeat split; reflexivity || lia.
  - simpl. lia.
Defined.

(** X8: rows of the selected actions beyond the first [n_rounds] are
    never read by the orchestrator: appending rows to a matrix with at
    least [n_rounds] rows leaves the outcome of
    [_create_estimator_inputs] unchanged when no regression model is
    configured, and leaves [action_match] unchanged whenever both
    calls build their inputs. *)
Theorem surplus_rows_are_ignored
    (RM : Type) (RMops : RegressionModel RM)
    (self : OffPolicyEvaluation RM) (sa extra : Np.ndarray2) :
  (Z.to_nat (n_rounds (bandit_feedback self)) <= length sa)%nat ->
  (regression_model self = None ->
   outcome (_create_estimator_inputs (sa ++ extra) self) =
   outcome (_create_estimator_inputs sa self)) /\
  (forall inputs inputs',
     outcome (_create_estimator_inputs sa self) = Ok inputs ->
     outcome (_create_estimator_inputs (sa ++ extra) self) = Ok inputs' ->
     Dict.get inputs' "action_match" = Dict.get inputs "action_match").
Proof.
  intros Hn.
  pose proof (NpMore.fancy_index2_extra_rows sa extra
                (n_rounds (bandit_feedback self))
                (position (bandit_feedback self)) Hn) as Hsame.
  unfold outcome, _create_estimator_inputs. run_monad. rewrite Hsame.
  destruct (Np.fancy_index2 sa _ _) as [picked|]; simpl.
  2:{ split; [reflexivity | discriminate]. }
  destruct (Np.equal _ picked) as [am|]; simpl.
  2:{ split; [reflexivity | discriminate]. }
  destruct (regression_model self) as [rm|]; simpl.
  - split; [discriminate|]. unfold call.
    destruct (predict rm _ _ sa); destruct (predict rm _ _ (sa ++ extra)); simpl;
      intros inputs inputs' H H'; inversion H; inversion H'; subst; reflexivity.
  - split; [reflexivity|]. intros inputs inputs' H H'.
    inversion H; inversion H'; subst. reflexivity.
Qed.

(** The scenario with a fourth, surplus ranking. *)
Lemma surplus_rows_are_ignored_witness :
  outcome (_create_estimator_inputs (RMops := Sample.no_model)
             (Sample.selected_actions ++ [[7; 7]]) (Sample.plain Sample.feedback [])) =
  outcome (_create_estimator_inputs (RMops := Sample.no_model)
             Sample.selected_actions (Sample.plain Sample.feedback [])).
Proof.
  apply (proj1 (surplus_rows_are_ignored Empty_set Sample.no_model
                  (Sample.plain Sample.feedback []) Sample.selected_actions [[7; 7]]
                  ltac:(simpl; lia))).
  reflexivity.
Defined.

(** * Further properties of the evaluation operations as a whole *)

Section OperationFacts.
Context {RM : Type} {RMops : RegressionModel RM}.
Implicit Type self : OffPolicyEvaluation RM.

Lemma estimate_intervals_frame sa alpha n rs self :
  final_self (estimate_intervals sa alpha n rs self) = self.
Proof.
  rewrite estimate_intervals_run.
  destruct (create_inputs_run sa self) as (r & evs & -> & _).
  destruct r; reflexivity.
Qed.

Lemma evaluate_performance_of_estimators_frame sa truth self :
  final_self (evaluate_performance_of_estimators sa truth self) = self.
Proof.
  rewrite evaluate_performance_of_estimators_run.
  destruct (create_inputs_run sa self) as (r & evs & -> & _).
  destruct r; reflexivity.
Qed.

Lemma summarize_off_policy_estimates_frame sa alpha n rs self :
  final_self (summarize_off_policy_estimates sa alpha n rs self) = self.
Proof.
  rewrite summarize_off_policy_estimates_run.
  pose proof (estimate_policy_values_frame sa self) as H1.
  destruct (estimate_policy_values sa self) as [[[pv|e] self1] evs1];
    unfold final_self in *; simpl in *; subst; auto.
  pose proof (estimate_intervals_frame sa alpha n rs self) as H2.
  destruct (estimate_intervals sa alpha n rs self) as [[[iv|e] self2] evs2];
    unfold final_self in *; simpl in *; subst; auto.
Qed.

Lemma run_call_frame c self : fst (run_call c self) = self.
Proof.
  destruct c; simpl.
  - apply estimate_policy_values_frame.
  - apply estimate_intervals_frame.
  - apply summarize_off_policy_estimates_frame.
  - apply evaluate_performance_of_estimators_frame.
Qed.

Lemma create_inputs_predict_count sa self inputs :
  outcome (_create_estimator_inputs sa self) = Ok inputs ->
  count is_predict (trace (_create_estimator_inputs sa self)) =
  match regression_model self with Some _ => 1%nat | None => 0%nat end /\
  count is_create_estimator_inputs (trace (_create_estimator_inputs sa self)) = 1%nat.
Proof.
  unfold outcome, trace, _create_estimator_inputs. run_monad.
  destruct (Np.fancy_index2 _ _ _); simpl; [|discriminate].
  destruct (Np.equal _ _); simpl; [|discriminate].
  destruct (regression_model self) as [rm|]; simpl; auto.
  unfold call. destruct (predict _ _ _ _); simpl; [auto | discriminate].
Qed.

Lemma estimate_policy_values_raises sa self exc :
  outcome (estimate_policy_values sa self) = Raise exc ->
  forall name,
    count (is_estimate_interval name) (trace (estimate_policy_values sa self)) = 0%nat.
Proof.
  intros _ name. rewrite estimate_policy_values_run.
  destruct (create_inputs_no_estimator_call sa self) as [_ Hnoname].
  destruct (_create_estimator_inputs sa self) as [[[inputs|e] self1] evs0];
    unfold trace in *; simpl in *.
  - rewrite count_app, (proj2 (Hnoname name)), count_map_none; auto.
  - apply Hnoname.
Qed.

End OperationFacts.

(** X9: when input construction raises, each of
    [estimate_policy_values], [estimate_intervals],
    [summarize_off_policy_estimates] and
    [evaluate_performance_of_estimators] raises the same exception,
    makes no call beyond those of input construction, and so invokes
    no estimator, whatever the registry holds. *)
Theorem input_construction_failure_propagates
    (RM : Type) (RMops : RegressionModel RM)
    (self : OffPolicyEvaluation RM) (sa : Np.ndarray2)
    (alpha : float) (n : Z) (rs : option Z) (truth : scalar) (exc : exn) :
  outcome (_create_estimator_inputs sa self) = Raise exc ->
  let built := _create_estimator_inputs sa self in
  (outcome (estimate_policy_values sa self) = Raise exc /\
   trace (estimate_policy_values sa self) = trace built) /\
  (outcome (estimate_intervals sa alpha n rs self) = Raise exc /\
   trace (estimate_intervals sa alpha n rs self) = trace built) /\
  (outcome (summarize_off_policy_estimates sa alpha n rs self) = Raise exc /\
   trace (summarize_off_policy_estimates sa alpha n rs self) = trace built) /\
  (outcome (evaluate_performance_of_estimators sa truth self) = Raise exc /\
   trace (evaluate_performance_of_estimators sa truth self) = trace built) /\
  count is_estimator_call (trace built) = 0%nat.
Proof.
  intros Hfail built. unfold built. clear built.
  destruct (create_inputs_no_estimator_call sa self) as [Hnocall _].
  rewrite summarize_off_policy_estimates_run.
  rewrite estimate_policy_values_run, estimate_intervals_run,
    evaluate_performance_of_estimators_run.
  destruct (_create_estimator_inputs sa self) as [[[inputs|e] self1] evs0];
    unfold outcome, trace in *; simpl in *; [discriminate|].
  inversion Hfail; subst. repeat split; auto.
Qed.

(** A logged position outside the rankings, three registered
    estimators: nothing is asked of them. *)
Lemma input_construction_failure_propagates_witness :
  let self := Sample.plain Sample.feedback_slot2 [Sample.rm_a; Sample.ipw] in
  outcome (estimate_policy_values (RMops := Sample.no_model) Sample.single_slot self)
    = Raise IndexError /\
  trace (estimate_policy_values (RMops := Sample.no_model) Sample.single_slot self)
    = [Ev_create_estimator_inputs Sample.single_slot].
Proof.
  destruct (input_construction_failure_propagates Empty_set Sample.no_model
              (Sample.plain Sample.feedback_slot2 [Sample.rm_a; Sample.ipw])
              Sample.single_slot 0.5%float 100 None 0.25%float IndexError eq_refl)
    as ((Hout & Htrace) & _).
  split; [exact Hout|]. rewrite Htrace. reflexivity.
Defined.

(** X10: no evaluation operation changes the orchestrator, whether
    it returns or raises; hence the calls made by a sequence of
    evaluation calls are those each call makes on the orchestrator as
    constructed, independently of the calls before it. *)
Theorem evaluation_operations_leave_orchestrator_unchanged
    (RM : Type) (RMops : RegressionModel RM) (self : OffPolicyEvaluation RM) :
  (forall sa alpha n rs truth,
     final_self (estimate_policy_values sa self) = self /\
     final_self (estimate_intervals sa alpha n rs self) = self /\
     final_self (summarize_off_policy_estimates sa alpha n rs self) = self /\
     final_self (evaluate_performance_of_estimators sa truth self) = self) /\
  (forall cs, run_calls cs self = flat_map (fun c => snd (run_call c self)) cs).
Proof.
  split.
  - intros sa alpha n rs truth.
    split; [apply estimate_policy_values_frame|].
    split; [apply estimate_intervals_frame|].
    split; [apply summarize_off_policy_estimates_frame|].
    apply evaluate_performance_of_estimators_frame.
  - induction cs as [|c cs IH]; simpl; auto.
    pose proof (run_call_frame c self) as Hc.
    destruct (run_call c self) as [self' evs]. simpl in Hc. subst self'.
    simpl. now rewrite IH.
Qed.

(** X11: when [summarize_off_policy_estimates] returns, the estimator
    inputs were built exactly twice (once per table) and [predict] was
    called twice when a regression model is configured and never
    otherwise; both passes hand the estimators the same inputs. *)
Theorem summary_builds_inputs_twice
    (RM : Type) (RMops : RegressionModel RM)
    (self : OffPolicyEvaluation RM) (sa : Np.ndarray2)
    (alpha : float) (n : Z) (rs : option Z)
    (tables : Pd.DataFrame * Pd.DataFrame) :
  let run := summarize_off_policy_estimates sa alpha n rs self in
  outcome run = Ok tables ->
  count is_create_estimator_inputs (trace run) = 2%nat /\
  count is_predict (trace run) =
    match regression_model self with Some _ => 2%nat | None => 0%nat end /\
  exists inputs,
    outcome (_create_estimator_inputs sa self) = Ok inputs /\
    (forall name p, In (Ev_estimate_policy_value name p) (trace run) -> p = inputs) /\
    (forall name p a k r,
       In (Ev_estimate_interval name p a k r) (trace run) -> p = inputs).
Proof.
  intros run. unfold run. clear run.
  rewrite summarize_off_policy_estimates_run.
  pose proof (estimate_policy_values_frame sa self) as Hframe.
  pose proof (estimate_policy_values_returns sa self) as Hpoint.
  destruct (estimate_policy_values sa self) as [[[pv|e] self1] evs1];
    unfold final_self in Hframe; simpl in Hframe; subst self1.
  2:{ unfold outcome; simpl; discriminate. }
  destruct (Hpoint pv eq_refl) as (inputs1 & Hin1 & _ & Htrace1).
  unfold trace at 1 in Htrace1. simpl in Htrace1. clear Hpoint.
  pose proof (estimate_intervals_returns sa alpha n rs self) as Hint.
  destruct (estimate_intervals sa alpha n rs self) as [[[iv|e] self2] evs2].
  2:{ unfold outcome; simpl; discriminate. }
  destruct (Hint iv eq_refl) as (inputs2 & Hin2 & _ & Htrace2).
  unfold trace at 1 in Htrace2. simpl in Htrace2. clear Hint.
  assert (inputs2 = inputs1) by congruence. subst inputs2.
  destruct (create_inputs_predict_count sa self inputs1 Hin1) as [Hpred Hcreate].
  destruct (create_inputs_run sa self) as (r & evs & Hrun & Hevs & _).
  set (evs0 := trace (_create_estimator_inputs sa self)) in *.
  assert (Hevs0 : forall ev, In ev evs0 -> is_estimator_call ev = false).
  { unfold evs0. rewrite Hrun. unfold trace. simpl. intros ev [<-|Hev]; auto.
    destruct Hevs as [->| ->]; simpl in Hev; [tauto|].
    destruct Hev as [<-|[]]; reflexivity. }
  intros _. unfold trace at 1 2 3 4. simpl. rewrite Htrace1, Htrace2.
  split; [|split].
  - rewrite !count_app, Hcreate, !count_map_none; auto.
  - rewrite !count_app, Hpred, !count_map_none; auto.
    destruct (regression_model self); reflexivity.
  - exists inputs1. split; [exact Hin1|]. split.
    + intros name p Hin. rewrite !in_app_iff in Hin.
      destruct Hin as [[Hin|Hin]|[Hin|Hin]].
      * apply Hevs0 in Hin. discriminate.
      * apply in_map_iff in Hin. destruct Hin as (entry & Heq & _).
        inversion Heq. reflexivity.
      * apply Hevs0 in Hin. discriminate.
      * apply in_map_iff in Hin. destruct Hin as (entry & Heq & _). discriminate.
    + intros name p a k r0 Hin. rewrite !in_app_iff in Hin.
      destruct Hin as [[Hin|Hin]|[Hin|Hin]].
      * apply Hevs0 in Hin. discriminate.
      * apply in_map_iff in Hin. destruct Hin as (entry & Heq & _). discriminate.
      * apply Hevs0 in Hin. discriminate.
      * apply in_map_iff in Hin. destruct Hin as (entry & Heq & _).
        inversion Heq. reflexivity.
Qed.

(** A fitted model and one estimator: two predictions per summary. *)
Lemma summary_builds_inputs_twice_witness :
  let self := Sample2.with_model Sample.feedback [Sample.ipw] true in
  let run := summarize_off_policy_estimates (RMops := Sample.flag_model)
               Sample.selected_actions 0.5%float 100 None self in
  count is_create_estimator_inputs (trace run) = 2%nat /\
  count is_predict (trace run) = 2%nat.
Proof.
  destruct (summary_builds_inputs_twice bool Sample.flag_model
              (Sample2.with_model Sample.feedback [Sample.ipw] true)
              Sample.selected_actions 0.5%float 100 None _ eq_refl)
    as (Hcreate & Hpredict & _).
  split; [exact Hcreate | exact Hpredict].
Defined.

(** X12: [summarize_off_policy_estimates] raises exactly the
    exception of the pass that fails: if the point pass raises, no
    interval operation is invoked at all; if the point pass returns
    and the interval pass raises, the point operations have already
    been invoked and the summary is lost. *)
Theorem summary_fails_with_its_failing_pass
    (RM : Type) (RMops : RegressionModel RM)
    (self : OffPolicyEvaluation RM) (sa : Np.ndarray2)
    (alpha : float) (n : Z) (rs : option Z) :
  let run := summarize_off_policy_estimates sa alpha n rs self in
  (forall exc,
     outcome (estimate_policy_values sa self) = Raise exc ->
     outcome run = Raise exc /\
     trace run = trace (estimate_policy_values sa self) /\
     forall name, count (is_estimate_interval name) (trace run) = 0%nat) /\
  (forall pv exc,
     outcome (estimate_policy_values sa self) = Ok pv ->
     outcome (estimate_intervals sa alpha n rs self) = Raise exc ->
     outcome run = Raise exc /\
     trace run = trace (estimate_policy_values sa self) ++
                 trace (estimate_intervals sa alpha n rs self)).
Proof.
  intros run. unfold run. clear run.
  rewrite summarize_off_policy_estimates_run.
  pose proof (estimate_policy_values_frame sa self) as Hframe.
  pose proof (estimate_policy_values_raises sa self) as Hnoint.
  destruct (estimate_policy_values sa self) as [[[pv|e] self1] evs1];
    unfold final_self in Hframe; simpl in Hframe; subst self1.
  - split; [intros exc H; discriminate|].
    intros pv' exc Hpv Hfail.
    destruct (estimate_intervals sa alpha n rs self) as [[[iv|e] self2] evs2];
      unfold outcome, trace in *; simpl in *; [discriminate|].
    inversion Hfail; subst. auto.
  - split; [|intros pv exc H; discriminate].
    intros exc Hfail. unfold outcome, trace in *; simpl in *.
    inversion Hfail; subst. repeat split. intros name. eapply Hnoint. reflexivity.
Qed.

(** A raising estimator between two sound ones: the summary raises
    and no interval is ever computed. *)
Lemma summary_fails_with_its_failing_pass_witness :
  let self := Sample.plain Sample.feedback [Sample.rm_a; Sample2.dm; Sample.ipw] in
  let run := summarize_off_policy_estimates (RMops := Sample.no_model)
               Sample.selected_actions 0.5%float 100 None self in
  outcome run = Raise ValueError /\
  count (is_estimate_interval "rm") (trace run) = 0%nat.
Proof.
  destruct (proj1 (summary_fails_with_its_failing_pass Empty_set Sample.no_model
              (Sample.plain Sample.feedback [Sample.rm_a; Sample2.dm; Sample.ipw])
              Sample.selected_actions 0.5%float 100 None) ValueError eq_refl)
    as (Hout & _ & Hnone).
  split; [exact Hout | apply Hnone].
Defined.

(** * Further properties of construction *)

Section ConstructionMore.
Context {RM : Type} {RMops : RegressionModel RM}.

Lemma registry_of_distinct_entries es :
  NoDup (map estimator_name es) ->
  registry_of es = map (fun e => (estimator_name e, e)) es.
Proof.
  induction es as [|e es IH] using rev_ind; intros Hnd.
  - reflexivity.
  - rewrite map_app in Hnd. simpl in Hnd.
    rewrite registry_of_snoc, map_app. simpl.
    assert (Hpre : NoDup (map estimator_name es)).
    { eapply NoDup_app_remove_r; eauto. }
    rewrite DictFacts.set_fresh.
    + now rewrite IH.
    + rewrite registry_of_names. intros Hin.
      apply NoDup_remove_2 in Hnd. apply Hnd. rewrite app_nil_r. exact Hin.
Qed.

End ConstructionMore.

(** X13: construction raises exactly when a regression model is
    given, [check_is_fitted] reports it unfitted and its [fit] raises,
    and then with [fit]'s exception; [check_is_fitted] is called once
    when a model is given and never otherwise; construction never
    builds estimator inputs, never calls [predict] and never invokes
    an estimator. *)
Theorem construction_fails_only_when_fit_fails
    (RM : Type) (RMops : RegressionModel RM)
    (bf : BanditFeedback) (es : list BaseOffPolicyEstimator)
    (ac : option (list (list float))) (rm : option RM) :
  let built := OffPolicyEvaluation_init bf es ac rm in
  (forall exc,
     fst built = Raise exc <->
     exists m, rm = Some m /\ check_is_fitted m = false /\ fit m bf ac = Raise exc) /\
  count is_check_is_fitted (snd built) =
    match rm with Some _ => 1%nat | None => 0%nat end /\
  count is_create_estimator_inputs (snd built) = 0%nat /\
  count is_predict (snd built) = 0%nat /\
  count is_estimator_call (snd built) = 0%nat.
Proof.
  simpl. rewrite init_run. destruct rm as [m|]; simpl.
  - destruct (check_is_fitted m) eqn:Efit; simpl.
    + repeat split; auto; try discriminate.
      intros (m0 & Hm & Hc & _). inversion Hm; subst. congruence.
    + destruct (fit m bf ac) as [m'|e] eqn:Eres; simpl; repeat split; auto.
      * discriminate.
      * intros (m0 & Hm & _ & Hf). inversion Hm; subst. congruence.
      * intros H. inversion H; subst. exists m. auto.
      * intros (m0 & Hm & _ & Hf). inversion Hm; subst. congruence.
  - repeat split; auto; try discriminate.
    intros (m0 & Hm & _). discriminate.
Qed.

(** A model whose [fit] raises: so does construction. *)
Lemma construction_fails_only_when_fit_fails_witness :
  fst (OffPolicyEvaluation_init (RMops := Sample2.unfittable_model)
         Sample.feedback [Sample.ipw] None (Some tt))
  = Raise (OtherError "fit failed").
Proof.
  apply (proj1 (construction_fails_only_when_fit_fails unit Sample2.unfittable_model
                  Sample.feedback [Sample.ipw] None (Some tt))).
  exists tt. repeat split.
Defined.

(** X14: an unfitted regression model is fitted at construction and
    the fitted model is the one the orchestrator keeps: if [fit] turns
    [m] into [m'] and [m'] counts as fitted, constructing with [m]
    yields the same orchestrator as constructing with [m'], the only
    difference being the [fit] call made on the way. *)
Theorem unfitted_model_is_fitted_once_and_kept
    (RM : Type) (RMops : RegressionModel RM)
    (bf : BanditFeedback) (es : list BaseOffPolicyEstimator)
    (ac : option (list (list float))) (m m' : RM) :
  check_is_fitted m = false ->
  fit m bf ac = Ok m' ->
  check_is_fitted m' = true ->
  fst (OffPolicyEvaluation_init bf es ac (Some m)) =
  fst (OffPolicyEvaluation_init bf es ac (Some m')) /\
  snd (OffPolicyEvaluation_init bf es ac (Some m)) = [Ev_check_is_fitted; Ev_fit] /\
  snd (OffPolicyEvaluation_init bf es ac (Some m')) = [Ev_check_is_fitted] /\
  exists self,
    fst (OffPolicyEvaluation_init bf es ac (Some m)) = Ok self /\
    regression_model self = Some m' /\
    bandit_feedback self = bf /\ action_context self = ac /\
    ope_estimators_ self = registry_of es.
Proof.
  intros Hunfit Hfit Hfitted. rewrite !init_run. simpl.
  rewrite Hunfit, Hfit, Hfitted. simpl.
  repeat split. eexists. repeat split.
Qed.

(** The flag model: [false] is fitted into [true]. *)
Lemma unfitted_model_is_fitted_once_and_kept_witness :
  fst (OffPolicyEvaluation_init (RMops := Sample.flag_model)
         Sample.feedback [Sample.ipw] None (Some false)) =
  fst (OffPolicyEvaluation_init (RMops := Sample.flag_model)
         Sample.feedback [Sample.ipw] None (Some true)).
Proof.
  apply (unfitted_model_is_fitted_once_and_kept bool Sample.flag_model
           Sample.feedback [Sample.ipw] None false true eq_refl eq_refl eq_refl).
Defined.

(** X15: for estimators with pairwise distinct names, constructing
    the orchestrator and calling [estimate_policy_values] reports the
    estimators in the order of the list: the result pairs each
    estimator's name with that estimator's own point estimate on the
    shared inputs. *)
Theorem distinct_names_report_in_list_order
    (RM : Type) (RMops : RegressionModel RM)
    (bf : BanditFeedback) (es : list BaseOffPolicyEstimator)
    (ac : option (list (list float))) (rm : option RM)
    (self : OffPolicyEvaluation RM) (evs : list Event)
    (sa : Np.ndarray2) (inputs : EstimatorInputs) :
  NoDup (map estimator_name es) ->
  OffPolicyEvaluation_init bf es ac rm = (Ok self, evs) ->
  outcome (_create_estimator_inputs sa self) = Ok inputs ->
  Forall (fun e => exists v, estimate_policy_value e inputs = Ok v) es ->
  exists d,
    outcome (estimate_policy_values sa self) = Ok d /\
    Forall2 (fun e kv => fst kv = estimator_name e /\
                         estimate_policy_value e inputs = Ok (snd kv)) es d.
Proof.
  intros Hnd Hinit Hin Hall.
  assert (Hreg : ope_estimators_ self = map (fun e => (estimator_name e, e)) es).
  { rewrite <- (registry_of_distinct_entries es Hnd).
    rewrite init_run in Hinit. destruct rm as [m|]; simpl in Hinit.
    - destruct (check_is_fitted m).
      + inversion Hinit; subst; reflexivity.
      + destruct (fit m bf ac); inversion Hinit; subst; reflexivity.
    - inversion Hinit; subst; reflexivity. }
  rewrite estimate_policy_values_run.
  destruct (_create_estimator_inputs sa self) as [[[inputs0|e] self1] evs0] eqn:Erun;
    unfold outcome in Hin; simpl in Hin; [|discriminate].
  inversion Hin; subst inputs0.
  pose proof (create_inputs_frame sa self) as Hframe.
  rewrite Erun in Hframe. unfold final_self in Hframe. simpl in Hframe. subst self1.
  unfold outcome. simpl. rewrite Hreg.
  assert (Hret : Forall (returns (point_of inputs))
                   (map (fun e => (estimator_name e, e)) es)).
  { apply Forall_forall. intros entry Hentry.
    apply in_map_iff in Hentry. destruct Hentry as (e & <- & He).
    rewrite Forall_forall in Hall. exact (Hall e He). }
  destruct (collect_total (point_of inputs) _ [] Hret) as [d Hd].
  exists d. split; [exact Hd|].
  assert (Hwf : NoDup (Dict.keys (@nil (string * float)) ++
                       Dict.keys (map (fun e => (estimator_name e, e)) es))).
  { simpl. unfold Dict.keys. rewrite map_map. simpl. exact Hnd. }
  destruct (collect_fresh (point_of inputs) _ [] d Hwf Hd) as (l & -> & Hl).
  simpl. clear -Hl. remember (map (fun e => (estimator_name e, e)) es) as entries.
  revert es Heqentries. induction Hl as [|entry kv entries l [Hk Hv] _ IH];
    intros es Heq.
  - destruct es; [constructor | discriminate].
  - destruct es as [|e es]; [discriminate|]. simpl in Heq.
    inversion Heq; subst. constructor; auto.
Qed.

(** "rm" then "ipw": reported in that order with their own values. *)
Lemma distinct_names_report_in_list_order_witness :
  exists self evs d,
    OffPolicyEvaluation_init (RMops := Sample.no_model) Sample.feedback
      [Sample.rm_a; Sample.ipw] None None = (Ok self, evs) /\
    outcome (estimate_policy_values (RMops := Sample.no_model)
               Sample.selected_actions self) = Ok d /\
    Dict.keys d = ["rm"%string; "ipw"%string].
Proof.
  eexists. eexists.
  destruct (distinct_names_report_in_list_order Empty_set Sample.no_model
              Sample.feedback [Sample.rm_a; Sample.ipw] None None _ _
              Sample.selected_actions _
              ltac:(repeat constructor; simpl; intuition discriminate)
              eq_refl eq_refl)
    as (d & Hd & Hall).
  - repeat constructor; eexists; reflexivity.
  - exists d. split; [reflexivity|]. split; [exact Hd|].
    inversion Hall as [|e1 kv1 es1 l1 [Hk1 _] Hrest]; subst.
    inversion Hrest as [|e2 kv2 es2 l2 [Hk2 _] Hnil]; subst.
    inversion Hnil; subst. simpl. now rewrite Hk1, Hk2.
Defined.

(** X16: [summarize_estimators_comparison] calls
    [evaluate_performance_of_estimators] without its required
    [ground_truth_policy_value], so for every orchestrator and every
    selected-actions input it raises [TypeError] before the inputs are
    built or any estimator is invoked, and produces no table. *)
Theorem summarize_estimators_comparison_always_raises
    (RM : Type) (RMops : RegressionModel RM)
    (self : OffPolicyEvaluation RM) (sa : Np.ndarray2) :
  outcome (summarize_estimators_comparison sa self) = Raise TypeError /\
  trace (summarize_estimators_comparison sa self) = [] /\
  final_self (summarize_estimators_comparison sa self) = self.
Proof.
  unfold summarize_estimators_comparison, evaluate_performance_of_estimators_call.
  unfold outcome, trace, final_self, bind, lift. simpl.
  repeat split.
Qed.

(** * The interval table *)

(** X17: when [summarize_off_policy_estimates] returns, the interval
    table has one row per registered estimator, labelled by its name,
    in registry order; and when every estimator reports its interval
    under the same keys [ks] (as a dictionary with distinct keys), the
    columns are [ks] and each row holds that estimator's interval
    values in that order. *)
Theorem interval_table_has_one_row_per_estimator
    (RM : Type) (RMops : RegressionModel RM)
    (self : OffPolicyEvaluation RM) (sa : Np.ndarray2)
    (alpha : float) (n : Z) (rs : option Z)
    (df_point df_interval : Pd.DataFrame) :
  Dict.wf (ope_estimators_ self) ->
  outcome (summarize_off_policy_estimates sa alpha n rs self) =
    Ok (df_point, df_interval) ->
  exists intervals,
    outcome (estimate_intervals sa alpha n rs self) = Ok intervals /\
    Pd.index df_interval = Dict.keys (ope_estimators_ self) /\
    length (Pd.data df_interval) = length (ope_estimators_ self) /\
    (forall ks,
       ope_estimators_ self <> [] ->
       NoDup ks ->
       Forall (fun d => Dict.keys d = ks) (Dict.values intervals) ->
       Pd.columns df_interval = ks /\
       Pd.data df_interval = map (@Dict.values float) (Dict.values intervals)).
Proof.
  intros Hwf. rewrite summarize_off_policy_estimates_run.
  pose proof (estimate_policy_values_frame sa self) as Hframe.
  destruct (estimate_policy_values sa self) as [[[pv|e] self1] evs1];
    unfold final_self in Hframe; simpl in Hframe; subst self1.
  2:{ unfold outcome; simpl; discriminate. }
  pose proof (estimate_intervals_returns sa alpha n rs self) as Hint.
  destruct (estimate_intervals sa alpha n rs self) as [[[iv|e] self2] evs2].
  2:{ unfold outcome; simpl; discriminate. }
  destruct (Hint iv eq_refl) as (inputs & _ & Hcollect & _). clear Hint.
  destruct (collect_registry _ _ _ Hwf Hcollect) as [Hkeys _].
  unfold outcome. simpl. intros Heq. inversion Heq; subst. clear Heq.
  destruct (PdFacts.transposed_from_dicts iv) as (Hindex & Hcolumns & Hdata).
  exists iv. split; [reflexivity|]. split; [now rewrite Hindex|]. split.
  - rewrite Hdata, length_map. unfold Dict.values. rewrite length_map.
    apply (f_equal (@length string)) in Hkeys. unfold Dict.keys in Hkeys.
    now rewrite !length_map in Hkeys.
  - intros ks Hne Hnd Hall.
    assert (Hlabels : Pd.union_keys [] (map (@Dict.keys float) (Dict.values iv)) = ks).
    { apply PdFacts.union_keys_uniform; auto.
      - destruct iv; [|discriminate]. simpl in Hkeys.
        destruct (ope_estimators_ self); [congruence | discriminate].
      - apply Forall_forall. intros ks' Hks'. apply in_map_iff in Hks'.
        destruct Hks' as (d & <- & Hd). rewrite Forall_forall in Hall. auto. }
    split; [now rewrite Hcolumns|].
    rewrite Hdata, Hlabels. apply map_ext_in. intros d Hd.
    rewrite Forall_forall in Hall. rewrite <- (Hall d Hd).
    apply PdFacts.cells_of_own_keys. unfold Dict.wf. now rewrite (Hall d Hd).
Qed.

(** Two estimators reporting mean, lower and upper. *)
Lemma interval_table_has_one_row_per_estimator_witness :
  let self := Sample.plain Sample.feedback [Sample.rm_a; Sample.ipw] in
  exists df_point df_interval,
    outcome (summarize_off_policy_estimates (RMops := Sample.no_model)
               Sample.selected_actions 0.5%float 100 None self) =
      Ok (df_point, df_interval) /\
    Pd.index df_interval = ["rm"%string; "ipw"%string] /\
    Pd.columns df_interval = ["mean"%string; "lower"%string; "upper"%string].
Proof.
  assert (Hwf : Dict.wf (ope_estimators_
                  (Sample.plain Sample.feedback [Sample.rm_a; Sample.ipw]))).
  { repeat constructor; simpl; intuition discriminate. }
  destruct (interval_table_has_one_row_per_estimator Empty_set Sample.no_model
              (Sample.plain Sample.feedback [Sample.rm_a; Sample.ipw])
              Sample.selected_actions 0.5%float 100 None _ _ Hwf eq_refl)
    as (iv & Hiv & Hindex & _ & Huniform).
  eexists. eexists. split; [reflexivity|]. split; [exact Hindex|].
  inversion Hiv; subst iv.
  apply (Huniform ["mean"%string; "lower"%string; "upper"%string]).
  - discriminate.
  - repeat constructor; simpl; intuition discriminate.
  - repeat constructor.
Defined.
